(** * Web slide decks to PDF: the capture pipeline and the batch driver

    A shallow embedding of the Python sources:
    - [core.py]: the in-page analysis run by [_analyze_presentation], the
      step planner [_generate_steps] and the job [convert_presentation];
    - [cli.py]: [process_files], with the search for the files to convert,
      and [main].

    Python integers are [Z], strings are [string], lists are [list].  The
    browser, the file system, the terminal and the progress callback are
    the outside world: every call into it is recorded as an [Event], in
    order, and may raise, as an oracle of the environment decides call by
    call.  A computation maps the world it starts from to the events it
    emits, the world it ends in and a value or an exception.

    The definitions come first; the properties, with the lemmas they need,
    follow under "Properties". *)

From Stdlib Require Import ZArith List Lia Ascii.
From stdpp Require Import base tactics option list strings pretty gmap
  sorting.

Local Open Scope Z_scope.
Local Open Scope string_scope.
Local Open Scope list_scope.

(** ** Python built-ins used by the sources *)

Module Py.

(** [str(n)] of an integer, also what [f"{n}"] prints. *)
Definition str (n : Z) : string := pretty n.

(** [range(n)]: empty when [n <= 0]. *)
Definition range (n : Z) : list Z := map Z.of_nat (seq 0 (Z.to_nat n)).

Fixpoint enumerate_from {A} (start : Z) (l : list A) : list (Z * A) :=
  match l with
  | [] => []
  | x :: l' => (start, x) :: enumerate_from (start + 1) l'
  end.

(** [enumerate(l)]. *)
Definition enumerate {A} (l : list A) : list (Z * A) := enumerate_from 0 l.

(** [len(l)]. *)
Definition len {A} (l : list A) : Z := Z.of_nat (length l).

Fixpoint zeros (n : nat) : string :=
  match n with O => "" | S n' => "0" +:+ zeros n' end.

(** [f"{n:04d}"] for [n >= 0]: decimal digits, zero-padded to width 4. *)
Definition fmt_04d (n : Z) : string :=
  let s := str n in zeros (4 - String.length s)%nat +:+ s.

(** [sum(l)]. *)
Definition sum (l : list Z) : Z := fold_right Z.add 0 l.

End Py.

(** ** Result of the in-page analysis

    [_analyze_presentation] returns one of three object literals; the value
    of their ["type"] key is the constructor, and a test on [info["type"]]
    is a match on the constructor. *)

Inductive Info :=
| Sozi (width height : Z) (data : list string)
| JessyInk (width height : Z) (data : list Z)
| UnknownInfo.

Definition info_type (info : Info) : string :=
  match info with
  | Sozi _ _ _ => "sozi"
  | JessyInk _ _ _ => "jessyink"
  | UnknownInfo => "unknown"
  end.

(** What the injected script can see of the loaded page.

    The model covers the pages that the two frameworks produce: [effects],
    where a slide has it, is an array, whose [length] is a natural number,
    and the sizes are integers.  On such pages [int(info["width"])] and
    [int(info["height"])] (core.py, line 80) are the numbers themselves
    and [effect_count + 1] (line 45) cannot raise.  A page whose script
    sets these globals to something else (a fractional or non-finite
    size, a truthy [effects] whose [length] is not a natural number) is
    outside the model: on such a page [int()] or [range()] may raise
    although no call into the outside world does. *)
Record SlideObj := { effects : option nat }.
  (* [s.effects]: [None] when absent (falsy), else the [length] of the array *)

Record PageGlobals := {
  sozi_presentation : option (list string);
    (* [typeof sozi !== 'undefined' && sozi.presentation]: the [frameId] of
       each entry of [sozi.presentation.frames], in order *)
  slides : option (list SlideObj);      (* the global [slides], if defined *)
  innerWidth : Z;  innerHeight : Z;     (* [window.innerWidth/innerHeight] *)
  WIDTH : option Z;  HEIGHT : option Z  (* [window.WIDTH], [window.HEIGHT] *)
}.

(** JavaScript [x || d] on a number: [0] and [undefined] are falsy. *)
Definition js_or (x : option Z) (d : Z) : Z :=
  match x with
  | Some v => if Z.eqb v 0 then d else v
  | None => d
  end.

(** The script evaluated by [_analyze_presentation] (core.py, lines 13-33). *)
Definition analyze (g : PageGlobals) : Info :=
  match sozi_presentation g with
  | Some frames =>
      Sozi (js_or (Some (innerWidth g)) 1024) (js_or (Some (innerHeight g)) 768)
           frames
  | None =>
      match slides g with
      | Some (s :: rest) =>
          JessyInk (js_or (WIDTH g) 1024) (js_or (HEIGHT g) 768)
            (map (fun s => match effects s with
                           | Some n => Z.of_nat n
                           | None => 0
                           end) (s :: rest))
      | _ => UnknownInfo
      end
  end.

(** ** The step planner (core.py, lines 37-47) *)

Definition jessyink_hash (slide_idx effect_step : Z) : string :=
  "#" +:+ Py.str (slide_idx + 1) +:+ "_" +:+ Py.str effect_step.

Definition _generate_steps (info : Info) : list string :=
  match info with
  | Sozi _ _ data => map (fun frame_id => "#" +:+ frame_id) data
  | JessyInk _ _ data =>
      flat_map (fun '(slide_idx, effect_count) =>
                  map (fun effect_step => jessyink_hash slide_idx effect_step)
                      (Py.range (effect_count + 1)))
               (Py.enumerate data)
  | UnknownInfo => []
  end.

(** ** Exceptions, events and the outside world *)

Inductive exn :=
| ValueError (msg : string)
| RuntimeError (msg : string)
| LibraryError (msg : string)  (* any other [Exception] raised by a call *)
| KeyboardInterrupt.           (* a [BaseException] that is no [Exception] *)

Definition is_Exception (e : exn) : bool :=
  match e with KeyboardInterrupt => false | _ => true end.

(** What a path of the file system holds. *)
Inductive FileContent :=
| Truncated                       (* opened with ["wb"], nothing written *)
| PdfOf (images : list string)    (* [img2pdf.convert] of these image files *)
| Blob (bytes : string).          (* anything else *)

(** Lines printed by [cli.py]. *)
Inductive Message :=
| Help                                  (* [parser.print_help()] *)
| NoValidFiles
| Header (count : Z) (quality : Z)
| Processing (input_file : string)
| Saved (output_pdf : string)
| ConvertError (input_file : string) (e : exn)
| Separator
| Interrupted.

(** Calls into the outside world, in the vocabulary of the sources. *)
Inductive Event :=
| PlaywrightStart                          (* entering [async_playwright()] *)
| PlaywrightStop                           (* leaving it *)
| Launch (headless : bool)                 (* [p.chromium.launch] *)
| NewContext (device_scale_factor : Z)     (* [browser.new_context] *)
| NewPage                                  (* [context.new_page] *)
| Goto (url : string)                      (* [page.goto] *)
| WaitForLoadState (state : string)
| Evaluate                                 (* [page.evaluate] *)
| AddStyleTag (content : string)
| SetViewportSize (width height : Z)
| Reload                                   (* [page.reload] *)
| Sleep (milliseconds : Z)                 (* [asyncio.sleep] *)
| Screenshot (path : string)               (* [page.screenshot], png *)
| BrowserClose                             (* [browser.close] *)
| TempDirCreate                            (* entering [TemporaryDirectory()] *)
| TempDirCleanup                           (* leaving it *)
| OpenWb (path : string)                   (* [open(path, "wb")] *)
| Img2pdfConvert (images : list string)    (* [img2pdf.convert] *)
| FileWrite (path : string)                (* [f.write] *)
| FileClose (path : string)                (* leaving [with open(...)] *)
| Progress (current total : Z) (message : string)  (* [progress_callback] *)
| Print (m : Message).                     (* [print] *)

Record Env := {
  fault : nat -> option exn;
    (* whether the n-th call of the process raises, and what *)
  page_globals : string -> PageGlobals;
    (* the script-visible state of the document loaded from a URL *)
  tmp_dir : nat -> string;
    (* name of the temporary directory created by the n-th call *)
  as_uri : string -> string;
    (* [Path.absolute().as_uri()] *)
  with_suffix_pdf : string -> string;
    (* [Path.with_suffix(".pdf")] *)
  path_name : string -> string;
    (* [Path.name] *)
  scan : list string -> list string
    (* the files [process_files] finds under the given paths (cli.py,
       lines 22-33), deduplicated and sorted *)
}.

Record World := {
  clock : nat;                     (* calls made so far *)
  driver : bool;                   (* Playwright driver running *)
  browser : bool;                  (* browser launched and not yet closed *)
  fs : gmap string FileContent     (* files outside the temporary directory *)
}.

Definition tick (w : World) : World :=
  {| clock := S (clock w); driver := driver w; browser := browser w;
     fs := fs w |}.

Definition set_driver (b : bool) (w : World) : World :=
  {| clock := clock w; driver := b; browser := browser w; fs := fs w |}.

Definition set_browser (b : bool) (w : World) : World :=
  {| clock := clock w; driver := driver w; browser := b; fs := fs w |}.

Definition set_file (path : string) (c : FileContent) (w : World) : World :=
  {| clock := clock w; driver := driver w; browser := browser w;
     fs := <[path := c]> (fs w) |}.

(** Stopping the driver also ends every browser it launched. *)
Definition stop_driver (w : World) : World := set_browser false (set_driver false w).

(** ** Computations: events emitted, final world, value or exception *)

Inductive Result (A : Type) :=
| Ok (a : A)
| Raise (e : exn).
Arguments Ok {A} a.
Arguments Raise {A} e.

Record Outcome (A : Type) := {
  events : list Event;
  final : World;
  result : Result A
}.
Arguments events {A} o.
Arguments final {A} o.
Arguments result {A} o.

Definition M (A : Type) : Type := World -> Outcome A.

Definition ret {A} (a : A) : M A :=
  fun w => {| events := []; final := w; result := Ok a |}.

Definition raise {A} (e : exn) : M A :=
  fun w => {| events := []; final := w; result := Raise e |}.

Definition bind {A B} (m : M A) (k : A -> M B) : M B :=
  fun w =>
    let o := m w in
    match result o with
    | Ok a =>
        let o' := k a (final o) in
        {| events := events o ++ events o'; final := final o';
           result := result o' |}
    | Raise e => {| events := events o; final := final o; result := Raise e |}
    end.

(** [try: body finally: cleanup]; an exception of the cleanup replaces the
    outcome of the body. *)
Definition try_finally {A} (body : M A) (cleanup : M unit) : M A :=
  fun w =>
    let o := body w in
    let c := cleanup (final o) in
    {| events := events o ++ events c; final := final c;
       result := match result c with
                 | Ok _ => result o
                 | Raise e => Raise e
                 end |}.

(** [try: body except Exception as e: handler(e)]; a [BaseException] that
    is no [Exception] passes through. *)
Definition try_except {A} (body : M A) (handler : exn -> M A) : M A :=
  fun w =>
    let o := body w in
    match result o with
    | Ok a => o
    | Raise e =>
        if is_Exception e then
          let h := handler e (final o) in
          {| events := events o ++ events h; final := final h;
             result := result h |}
        else o
    end.

(** [with enter as x: body], for context managers that do not suppress
    exceptions. *)
Definition with_ {A B} (enter : M A) (leave : M unit) (body : A -> M B) : M B :=
  bind enter (fun x => try_finally (body x) leave).

#[global] Instance M_ret : MRet M := @ret.
#[global] Instance M_bind : MBind M := fun A B k m => bind m k.

Section Core.

Variable env : Env.

(** A call that may raise; [effect] happens only when it does not. *)
Definition call (ev : Event) (effect : World -> World) : M unit :=
  fun w =>
    match fault env (clock w) with
    | Some e => {| events := [ev]; final := tick w; result := Raise e |}
    | None => {| events := [ev]; final := effect (tick w); result := Ok tt |}
    end.

(** A call that returns a value supplied by the environment. *)
Definition ask {A} (ev : Event) (answer : nat -> A) : M A :=
  fun w =>
    match fault env (clock w) with
    | Some e => {| events := [ev]; final := tick w; result := Raise e |}
    | None => {| events := [ev]; final := tick w;
                 result := Ok (answer (clock w)) |}
    end.

(** A call that cannot raise: terminal output and driver teardown. *)
Definition perform (ev : Event) (effect : World -> World) : M unit :=
  fun w => {| events := [ev]; final := effect (tick w); result := Ok tt |}.

Definition TRANSITION_DELAY : Z := 600.   (* 0.6 s, in milliseconds *)

(** core.py, lines 10-34, for a page showing the document at [url]. *)
Definition _analyze_presentation (url : string) : M Info :=
  ask Evaluate (fun _ => analyze (page_globals env url)).

Definition notify (progress_callback : bool) (current total : Z)
    (message : string) : M unit :=
  if progress_callback then call (Progress current total message) id
  else ret tt.

Definition img_path (tmp_dir : string) (current : Z) : string :=
  tmp_dir +:+ "/" +:+ Py.fmt_04d current +:+ ".png".

(** The [for] loop of core.py, lines 88-101; [image_files] is the list
    being appended to. *)
Fixpoint capture_loop (file_url tmp_dir : string) (progress_callback : bool)
    (total : Z) (steps : list (Z * string)) (image_files : list string)
    : M (list string) :=
  match steps with
  | [] => ret image_files
  | (idx, step_hash) :: steps' =>
      let current := idx + 1 in
      notify progress_callback current total
        ("Capturando " +:+ Py.str current +:+ "/" +:+ Py.str total) ;;
      call (Goto (file_url +:+ step_hash)) id ;;
      call Reload id ;;
      call (Sleep TRANSITION_DELAY) id ;;
      call (Screenshot (img_path tmp_dir current)) id ;;
      capture_loop file_url tmp_dir progress_callback total steps'
        (image_files ++ [img_path tmp_dir current])
  end.

(** core.py, lines 109-110. *)
Definition write_pdf (output_path : string) (image_files : list string)
    : M unit :=
  with_ (call (OpenWb output_path) (set_file output_path Truncated))
        (call (FileClose output_path) id)
    (fun _ =>
       call (Img2pdfConvert image_files) id ;;
       call (FileWrite output_path)
            (set_file output_path (PdfOf image_files))).

(** The body of the [try] of core.py, lines 61-110. *)
Definition convert_body (file_url output_path : string)
    (progress_callback : bool) : M unit :=
  notify progress_callback 0 0 "Cargando presentación..." ;;
  call (Goto file_url) id ;;
  call (WaitForLoadState "networkidle") id ;;
  info ← _analyze_presentation file_url;
  match info with
  | UnknownInfo =>
      raise (ValueError
        "No es una presentación compatible (se requiere JessyInk o Sozi).")
  | Sozi width height _ | JessyInk width height _ =>
      (match info with
       | Sozi _ _ _ =>
           call (AddStyleTag
             ".sozi-frame-list, .sozi-frame-number { display: none !important; }")
             id
       | _ => ret tt
       end) ;;
      (* [int(info["width"])], [int(info["height"])]: integers already *)
      call (SetViewportSize width height) id ;;
      let steps := _generate_steps info in
      let total := Py.len steps in
      with_ (ask TempDirCreate (tmp_dir env)) (call TempDirCleanup id)
        (fun tmp_dir =>
           image_files ← capture_loop file_url tmp_dir progress_callback
                            total (Py.enumerate steps) [];
           notify progress_callback total total "Generando PDF..." ;;
           match image_files with
           | [] => raise (RuntimeError "No se generaron imágenes.")
           | _ => write_pdf output_path image_files
           end)
  end.

(** core.py, lines 50-113. *)
Definition convert_presentation (file_path output_path : string)
    (quality : Z) (progress_callback : bool) : M unit :=
  with_ (call PlaywrightStart (set_driver true))
        (perform PlaywrightStop stop_driver)
    (fun _ =>
       call (Launch true) (set_browser true) ;;
       call (NewContext quality) id ;;
       call NewPage id ;;
       let file_url := as_uri env file_path in
       try_finally (convert_body file_url output_path progress_callback)
                   (call BrowserClose (set_browser false))).

End Core.

(** ** The batch driver (cli.py) *)

(** What the operating system sees of a finished process. *)
Record Process := {
  trace : list Event;
  at_exit : World;
  exit_code : Z
}.

Section Cli.

Variable env : Env.

(** The [for] loop of cli.py, lines 41-50.  The callback handed to
    [convert_presentation] is [cli_progress], which writes to the terminal:
    a callback is supplied. *)
Fixpoint process_loop (quality : Z) (files_to_process : list string)
    : M unit :=
  match files_to_process with
  | [] => ret tt
  | input_file :: rest =>
      let output_pdf := with_suffix_pdf env input_file in
      perform (Print (Processing (path_name env input_file))) id ;;
      try_except
        (convert_presentation env input_file output_pdf quality true ;;
         perform (Print (Saved (path_name env output_pdf))) id)
        (fun e =>
           perform (Print (ConvertError (path_name env input_file) e)) id) ;;
      perform (Print Separator) id ;;
      process_loop quality rest
  end.

(** cli.py, lines 20-50. *)
Definition process_files (paths : list string) (quality : Z) : M unit :=
  let files_to_process := scan env paths in
  match files_to_process with
  | [] => perform (Print NoValidFiles) id
  | _ =>
      perform (Print (Header (Py.len files_to_process) quality)) id ;;
      process_loop quality files_to_process
  end.

(** cli.py, lines 53-77, after [parse_args] accepted the command line.
    Falling off the end of [main] and [sys.exit(0)] exit with 0; an
    exception that nobody catches ends the interpreter with 1. *)
Definition main (paths : list string) (quality : Z) (w : World) : Process :=
  match paths with
  | [] =>
      let o := perform (Print Help) id w in
      {| trace := events o; at_exit := final o; exit_code := 0 |}
  | _ =>
      let o := process_files paths quality w in
      match result o with
      | Ok _ => {| trace := events o; at_exit := final o; exit_code := 0 |}
      | Raise KeyboardInterrupt =>
          let o' := perform (Print Interrupted) id (final o) in
          {| trace := events o ++ events o'; at_exit := final o';
             exit_code := 0 |}
      | Raise _ => {| trace := events o; at_exit := final o; exit_code := 1 |}
      end
  end.

End Cli.

(** ** Vocabulary of the statements *)

(** Position, in the plan, of the first step of the slide at 0-based
    index [i], when the slides have effect counts [es]. *)
Definition slide_offset (es : list Z) (i : nat) : Z :=
  Py.sum (take i es) + Z.of_nat i.

(** The steps of one slide (core.py, lines 45-46). *)
Definition slide_steps (slide_idx effect_count : Z) : list string :=
  map (fun effect_step => jessyink_hash slide_idx effect_step)
      (Py.range (effect_count + 1)).

(** Outcomes of composed computations. *)
Definition after {A B} (o : Outcome A) (o' : Outcome B) : Outcome B :=
  {| events := events o ++ events o'; final := final o';
     result := result o' |}.

Definition raised {A} (B : Type) (o : Outcome A) (e : exn) : Outcome B :=
  {| events := events o; final := final o; result := Raise e |}.

Definition finished {A} (o : Outcome A) (c : Outcome unit) : Outcome A :=
  {| events := events o ++ events c; final := final c;
     result := match result c with
               | Ok _ => result o
               | Raise e => Raise e
               end |}.

(** [wp m w Q]: the outcome of running [m] from [w] satisfies [Q]. *)
Definition wp {A} (m : M A) (w : World) (Q : Outcome A -> Prop) : Prop :=
  Q (m w).

(** An event with the capture resolution forgotten. *)
Definition erase_quality (ev : Event) : Event :=
  match ev with
  | NewContext _ => NewContext 0
  | _ => ev
  end.

(** The URLs navigated to, the screenshots taken, the progress reports
    made and the page lists handed to the assembler, in order. *)
Definition navigations (evs : list Event) : list string :=
  omap (fun ev => match ev with Goto url => Some url | _ => None end) evs.

Definition screenshots (evs : list Event) : list string :=
  omap (fun ev => match ev with Screenshot p => Some p | _ => None end) evs.

Definition progress_reports (evs : list Event) : list (Z * Z * string) :=
  omap (fun ev => match ev with
                  | Progress c t m => Some (c, t, m)
                  | _ => None
                  end) evs.

Definition assembled (evs : list Event) : list (list string) :=
  omap (fun ev => match ev with
                  | Img2pdfConvert images => Some images
                  | _ => None
                  end) evs.

(** An outside world for the examples. *)
Definition sozi_page (frames : list string) : PageGlobals :=
  {| sozi_presentation := Some frames; slides := None;
     innerWidth := 800; innerHeight := 600; WIDTH := None; HEIGHT := None |}.

Definition jessyink_page (counts : list nat) : PageGlobals :=
  {| sozi_presentation := None;
     slides := Some (map (fun n => {| effects := Some n |}) counts);
     innerWidth := 800; innerHeight := 600;
     WIDTH := Some 1024; HEIGHT := Some 768 |}.

Definition plain_page : PageGlobals :=
  {| sozi_presentation := None; slides := None;
     innerWidth := 800; innerHeight := 600; WIDTH := None; HEIGHT := None |}.

(** [pathlib]'s reading of a POSIX path in normal form, given as a
    string: the name is what follows the last slash; the suffix is the
    last dot of the name with what follows it, unless that dot starts or
    ends the name; [with_suffix] replaces the suffix, or appends to a
    name that has none. *)
Fixpoint take_until (c : ascii) (l : list ascii) : list ascii :=
  match l with
  | [] => []
  | x :: l' => if Ascii.eqb x c then [] else x :: take_until c l'
  end.

Definition posix_name (path : string) : string :=
  String.string_of_list_ascii
    (rev (take_until "/"%char (rev (String.list_ascii_of_string path)))).

Definition posix_suffix (path : string) : string :=
  let name := rev (String.list_ascii_of_string (posix_name path)) in
  let ext := take_until "."%char name in
  if (0 <? length ext)%nat && (length ext + 1 <? length name)%nat
  then String.string_of_list_ascii ("."%char :: rev ext)
  else "".

Definition posix_with_suffix (path suffix : string) : string :=
  String.substring 0 (String.length path - String.length (posix_suffix path))
                   path
  +:+ suffix.

Definition world_with (faults : nat -> option exn) (page : PageGlobals) : Env :=
  {| fault := faults;
     page_globals := fun _ => page;
     tmp_dir := fun _ => "/tmp/tmpdir";
     as_uri := fun p => "file://" +:+ p;
     with_suffix_pdf := fun p => posix_with_suffix p ".pdf";
     path_name := posix_name;
     scan := fun paths => paths |}.

Definition no_fault : nat -> option exn := fun _ => None.

Definition fault_at (n : nat) (e : exn) : nat -> option exn :=
  fun k => if Nat.eqb k n then Some e else None.

Definition idle (files : gmap string FileContent) : World :=
  {| clock := 0; driver := false; browser := false; fs := files |}.

(** The literals of [convert_presentation]. *)
Definition loading_message : string := "Cargando presentación...".
Definition generating_message : string := "Generando PDF...".
Definition capturing_message (current total : Z) : string :=
  "Capturando " +:+ Py.str current +:+ "/" +:+ Py.str total.
Definition unsupported_message : string :=
  "No es una presentación compatible (se requiere JessyInk o Sozi).".
Definition no_images_message : string := "No se generaron imágenes.".
Definition sozi_style : string :=
  ".sozi-frame-list, .sozi-frame-number { display: none !important; }".

(** What one iteration of the capture loop does when nothing fails. *)
Definition step_calls (file_url tmp_dir : string) (cb : bool) (total : Z)
    (step : Z * string) : list Event :=
  (if cb
   then [Progress (step.1 + 1) total (capturing_message (step.1 + 1) total)]
   else [])
  ++ [Goto (file_url +:+ step.2); Reload; Sleep TRANSITION_DELAY;
      Screenshot (img_path tmp_dir (step.1 + 1))].

Definition capture_calls (file_url tmp_dir : string) (cb : bool) (total : Z)
    (steps : list (Z * string)) : list Event :=
  flat_map (step_calls file_url tmp_dir cb total) steps.

Definition image_paths (tmp_dir : string) (steps : list (Z * string))
    : list string :=
  map (fun step => img_path tmp_dir (step.1 + 1)) steps.

(** Calls made inside the capture loop. *)
Definition is_capture_call (ev : Event) : bool :=
  match ev with
  | Progress _ _ _ | Goto _ | Reload | Sleep _ | Screenshot _ => true
  | _ => false
  end.

(** The calls [n .. n + len - 1] of the process do not raise. *)
Definition clean (env : Env) (n len : nat) : Prop :=
  forall k, (k < len)%nat -> fault env (n + k) = None.

(** What a conversion does before the capture loop when nothing fails. *)
Definition prelude_calls (file_url : string) (cb : bool) (info : Info)
    : list Event :=
  (if cb then [Progress 0 0 loading_message] else [])
  ++ [Goto file_url; WaitForLoadState "networkidle"; Evaluate]
  ++ match info with
     | Sozi width height _ =>
         [AddStyleTag sozi_style; SetViewportSize width height; TempDirCreate]
     | JessyInk width height _ =>
         [SetViewportSize width height; TempDirCreate]
     | UnknownInfo => []
     end.

(** The analysis of the document a conversion of [file_path] loads. *)
Definition detected (env : Env) (file_path : string) : Info :=
  analyze (page_globals env (as_uri env file_path)).

(** The temporary directory of a conversion started at [w]: the one the
    environment hands out at the [TempDirCreate] call. *)
Definition job_tmp_dir (env : Env) (file_path : string) (cb : bool)
    (w : World) : string :=
  tmp_dir env
    (3 + length (prelude_calls "" cb (detected env file_path)) + clock w).

(** The image files of a conversion: one per planned step, in order. *)
Definition job_images (env : Env) (file_path : string) (cb : bool)
    (w : World) : list string :=
  image_paths (job_tmp_dir env file_path cb w)
              (Py.enumerate (_generate_steps (detected env file_path))).

(** All the calls of a conversion in which nothing fails. *)
Definition success_calls (env : Env) (file_path output_path : string)
    (quality : Z) (cb : bool) (w : World) : list Event :=
  let file_url := as_uri env file_path in
  let info := detected env file_path in
  let steps := _generate_steps info in
  let total := Py.len steps in
  [PlaywrightStart; Launch true; NewContext quality; NewPage]
  ++ prelude_calls file_url cb info
  ++ capture_calls file_url (job_tmp_dir env file_path cb w) cb total
       (Py.enumerate steps)
  ++ (if cb then [Progress total total generating_message] else [])
  ++ [OpenWb output_path;
      Img2pdfConvert (job_images env file_path cb w);
      FileWrite output_path; FileClose output_path;
      TempDirCleanup; BrowserClose; PlaywrightStop].

(** Calls a conversion may make up to and including the inspection of the
    document, and to end the session. *)
Definition inspection_call (file_url : string) (ev : Event) : Prop :=
  match ev with
  | PlaywrightStart | PlaywrightStop | Launch _ | NewContext _ | NewPage
  | WaitForLoadState _ | Evaluate | BrowserClose => True
  | Goto url => url = file_url
  | Progress current total _ => current = 0 /\ total = 0
  | _ => False
  end.

(** Calls that produce output: opening the target, assembling, writing. *)
Definition is_output_call (ev : Event) : bool :=
  match ev with
  | OpenWb _ | Img2pdfConvert _ | FileWrite _ => true
  | _ => false
  end.

(** The run ended with an exception. *)
Definition raises {A} (o : Outcome A) : Prop := exists e, result o = Raise e.

(** Number of calls a conversion makes before it opens the output, when
    none of them fails: four to set the session up, the prelude, the calls
    of every step, and the last progress report. *)
Definition calls_before_assembly (env : Env) (file_path : string) (cb : bool)
    : nat :=
  let info := detected env file_path in
  4 + length (prelude_calls "" cb info)
  + (if cb then 5 else 4) * length (_generate_steps info)
  + (if cb then 1 else 0).

(** The progress reports of a conversion with [n] planned steps in which
    nothing fails. *)
Definition expected_reports (n : nat) : list (Z * Z * string) :=
  (0, 0, loading_message)
  :: map (fun i => (Z.of_nat i, Z.of_nat n,
                    capturing_message (Z.of_nat i) (Z.of_nat n)))
         (seq 1 n)
  ++ [(Z.of_nat n, Z.of_nat n, generating_message)].

(** [followed_by first then_ evs]: some event satisfying [first] is
    followed, later in [evs], by one satisfying [then_]. *)
Fixpoint followed_by (first then_ : Event -> bool) (evs : list Event) : bool :=
  match evs with
  | [] => false
  | ev :: rest =>
      (first ev && existsb then_ rest) || followed_by first then_ rest
  end.

Definition is_screenshot_of (path : string) (ev : Event) : bool :=
  match ev with
  | Screenshot p => String.eqb p path
  | _ => false
  end.

Definition is_report_of (current total : Z) (ev : Event) : bool :=
  match ev with
  | Progress c t _ => Z.eqb c current && Z.eqb t total
  | _ => false
  end.

(** Progress for step [current] of [total] is reported after the
    screenshot of that step has been taken. *)
Definition progress_after_capture (evs : list Event) (tmp_dir : string)
    (total current : Z) : bool :=
  followed_by (is_screenshot_of (img_path tmp_dir current))
              (is_report_of current total) evs.


(** Progress for step [current] of [total] is reported before the
    screenshot of that step is taken. *)
Definition progress_before_capture (evs : list Event) (tmp_dir : string)
    (total current : Z) : bool :=
  followed_by (is_report_of current total)
              (is_screenshot_of (img_path tmp_dir current)) evs.

(** What the trace of a batch shows: the files announced, the sessions
    started, and the verdict printed for each file. *)
Definition announced (evs : list Event) : list string :=
  omap (fun ev => match ev with
                  | Print (Processing name) => Some name
                  | _ => None
                  end) evs.

Definition sessions (evs : list Event) : list unit :=
  omap (fun ev => match ev with PlaywrightStart => Some tt | _ => None end)
       evs.

Inductive Verdict :=
| Converted (output_name : string)
| Failed (input_name : string) (e : exn).

Definition verdicts (evs : list Event) : list Verdict :=
  omap (fun ev => match ev with
                  | Print (Saved name) => Some (Converted name)
                  | Print (ConvertError name e) => Some (Failed name e)
                  | _ => None
                  end) evs.

(** Calls made by a conversion after it has started the driver. *)
Definition is_inner_call (ev : Event) : bool :=
  match ev with
  | Print _ | PlaywrightStart => false
  | _ => true
  end.

(** The plan of the slides with effect counts [es], numbered from
    [start] (core.py, lines 43-46). *)
Definition plan_from (start : Z) (es : list Z) : list string :=
  flat_map (fun '(slide_idx, effect_count) =>
              slide_steps slide_idx effect_count)
           (Py.enumerate_from start es).

(** What holds of the loop whatever fails: it only makes capture calls,
    each of them counted, and touches neither the session nor the files;
    and when it returns, no call failed, the calls are those of all the
    steps in order and one image was added per step. *)
Definition loop_post (env : Env) (file_url tmp_dir : string) (cb : bool) (total : Z)
    (steps : list (Z * string)) (image_files : list string) (w : World)
    (o : Outcome (list string)) : Prop :=
  clock (final o) = (clock w + length (events o))%nat /\
  driver (final o) = driver w /\
  browser (final o) = browser w /\
  fs (final o) = fs w /\
  forallb is_capture_call (events o) = true /\
  (forall images, result o = Ok images ->
     events o = capture_calls file_url tmp_dir cb total steps /\
     images = image_files ++ image_paths tmp_dir steps /\
     clean env (clock w) (length (events o))) /\
  (forall e, result o = Raise e ->
     exists c, (clock w <= c < clock w + length (events o))%nat /\
               fault env c = Some e).

(** The loop never makes more calls than the steps need. *)
Definition loop_within (env : Env) (file_url tmp_dir : string) (cb : bool)
    (total : Z) (steps : list (Z * string)) (image_files : list string)
    (w : World) (o : Outcome (list string)) : Prop :=
  loop_post env file_url tmp_dir cb total steps image_files w o /\
  (length (events o)
   <= length (capture_calls file_url tmp_dir cb total steps))%nat.

(** What holds of a conversion whatever fails: it starts the driver once,
    as its first call, and prints nothing; an exception it raises is one of
    its own, which are [Exception]s, or was raised by a call. *)
Definition convert_post (env : Env) (o : Outcome unit) : Prop :=
  (exists rest, events o = PlaywrightStart :: rest /\
                Forall (fun ev => is_inner_call ev = true) rest) /\
  (forall e, result o = Raise e ->
             is_Exception e = true \/ exists c, fault env c = Some e).




(** Every step's progress is reported after the step's screenshot, in a
    conversion that returns. *)
Definition progress_reported_after_work (env : Env)
    (file_path output_path : string) (quality : Z) (w : World) : Prop :=
  let o := convert_presentation env file_path output_path quality true w in
  let total := Py.len (_generate_steps (detected env file_path)) in
  result o = Ok tt ->
  forall current, 1 <= current <= total ->
    progress_after_capture (events o) (job_tmp_dir env file_path true w)
      total current = true.

(** The character [c] does not occur in [s]. *)
Fixpoint free_of (c : Ascii.ascii) (s : string) : bool :=
  match s with
  | EmptyString => true
  | String d s' => negb (Ascii.eqb d c) && free_of c s'
  end.

(** ** Vocabulary of the further properties *)

(** Number of steps that a slide with [effect_count] effects contributes:
    [len(range(effect_count + 1))]. *)
Definition steps_of_slide (effect_count : Z) : Z := Z.max 0 (effect_count + 1).

(** Calls that only release what was acquired. *)
Definition is_cleanup_call (ev : Event) : bool :=
  match ev with
  | FileClose _ | TempDirCleanup | BrowserClose | PlaywrightStop => true
  | _ => false
  end.

(** [gives_up info cb remaining]: with [remaining] calls of the script of
    a successful conversion still to make, the job stops by itself.  It
    does so at two points: right after the inspection, when the document
    is of no known kind (the last progress report and the seven calls from
    opening the output to stopping the driver remain), and right before
    opening the output, when the plan is empty (these seven calls
    remain). *)
Definition gives_up (info : Info) (cb : bool) (remaining : nat) : bool :=
  match info with
  | UnknownInfo => Nat.eqb remaining (if cb then 8 else 7)
  | _ =>
      match _generate_steps info with
      | [] => Nat.eqb remaining 7
      | _ => false
      end
  end.

(** [orderly env stop n script evs]: the calls [evs], the first of which
    is the call number [n] of the process, are the calls of [script], in
    order and each returning, up to the first call that raises or to the
    point where the job stops by itself, as [stop] says of the number of
    calls of the script that remain; from there on, only cleanup calls
    are made.  A run that ends anywhere else has made all the calls of
    the script. *)
Fixpoint orderly (env : Env) (stop : nat -> bool) (n : nat)
    (script evs : list Event) {struct evs} : Prop :=
  match evs with
  | [] => script = []
  | ev :: evs' =>
      if stop (length script)
      then Forall (fun e => is_cleanup_call e = true) (ev :: evs')
      else
        match script with
        | s :: script' =>
            ev = s /\
            ((fault env n = None /\ orderly env stop (S n) script' evs') \/
             (is_Some (fault env n) /\
              Forall (fun e => is_cleanup_call e = true) evs'))
        | [] => False
        end
  end.

(** What the capture loop adds to an orderly run, when the job does not
    stop by itself inside the loop: when the loop returns, the run goes on
    from where the loop ends; when it raises, only cleanup calls may
    follow. *)
Definition loop_orderly (env : Env) (stop : nat -> bool)
    (file_url tmp_dir : string) (cb : bool)
    (total : Z) (steps : list (Z * string)) (w : World)
    (o : Outcome (list string)) : Prop :=
  forall script evs,
    (forall m, (length script < m)%nat -> stop m = false) ->
    match result o with
    | Ok _ => orderly env stop (clock (final o)) script evs
    | Raise _ => Forall (fun e => is_cleanup_call e = true) evs
    end ->
    orderly env stop (clock w)
      (capture_calls file_url tmp_dir cb total steps ++ script)
      (events o ++ evs).

(** Both facts about the capture loop. *)
Definition loop_facts (env : Env) (stop : nat -> bool)
    (file_url tmp_dir : string) (cb : bool)
    (total : Z) (steps : list (Z * string)) (image_files : list string)
    (w : World) (o : Outcome (list string)) : Prop :=
  loop_within env file_url tmp_dir cb total steps image_files w o /\
  loop_orderly env stop file_url tmp_dir cb total steps w o.

(** What releases the resource that a call acquires. *)
Definition release_of (ev : Event) : option Event :=
  match ev with
  | PlaywrightStart => Some PlaywrightStop
  | TempDirCreate => Some TempDirCleanup
  | OpenWb path => Some (FileClose path)
  | _ => None
  end.

(** [released env n evs]: among the calls [evs], the first of which is the
    call number [n] of the process, every acquisition that returned is
    followed by its release. *)
Fixpoint released (env : Env) (n : nat) (evs : list Event) {struct evs}
    : Prop :=
  match evs with
  | [] => True
  | ev :: rest =>
      match release_of ev with
      | Some r => fault env n = None -> r ∈ rest
      | None => True
      end /\ released env (S n) rest
  end.

(** The verdict that the batch prints for a file it has dealt with. *)
Definition verdict_of (env : Env) (input_file : string) (v : Verdict)
    : Prop :=
  v = Converted (path_name env (with_suffix_pdf env input_file))
  \/ exists e, v = Failed (path_name env input_file) e.

(** What the trace of an interrupted batch shows: the files [dealt] with
    before the interruption got their verdicts, the file [current] was
    announced and its conversion started, and the files after it were not
    even announced. *)
Definition interrupted_at (env : Env) (files : list string)
    (evs : list Event) : Prop :=
  exists dealt current rest,
    files = dealt ++ current :: rest /\
    announced evs = map (path_name env) (dealt ++ [current]) /\
    length (sessions evs) = S (length dealt) /\
    Forall2 (verdict_of env) dealt (verdicts evs) /\
    exists c, fault env c = Some KeyboardInterrupt.

(** ** Finding the files to convert (cli.py, lines 22-33) *)

(** What [pathlib] answers about the paths on disk.  A path of the model
    stands for a [Path] object: two paths are equal when [pathlib] says
    so. *)
Record Disk := {
  is_file : string -> bool;                 (* [Path.is_file()] *)
  is_dir : string -> bool;                  (* [Path.is_dir()] *)
  suffix_lower : string -> string;          (* [Path.suffix.lower()] *)
  glob : string -> string -> list string    (* [list(Path.glob(pattern))] *)
}.

Definition valid_exts : list string := [".svg"; ".html"].

Section Discovery.

Variable disk : Disk.

(** The order in which Python iterates over the set [valid_exts]. *)
Variable exts : list string.

(** [list(set(l))]: the elements of [l], in an order of Python's choice. *)
Variable list_set : list string -> list string.

(** The order of [Path] objects, by which [sorted] sorts. *)
Variable path_le : relation string.
Context `{forall x y, Decision (path_le x y)}.

(** The test of line 26. *)
Definition accepted (path : string) : bool :=
  is_file disk path && bool_decide (suffix_lower disk path ∈ valid_exts).

(** The body of the loop over the paths, lines 25-30. *)
Definition visit (files_to_process : list string) (path : string)
    : list string :=
  if accepted path then files_to_process ++ [path]
  else if is_dir disk path then
    foldl (fun files ext => files ++ glob disk path ("*" +:+ ext))
          files_to_process exts
  else files_to_process.

(** Lines 22-32. *)
Definition files_to_process (paths : list string) : list string :=
  merge_sort path_le (list_set (foldl visit [] paths)).

End Discovery.

(** The file [f] is one of the given paths, an existing file with a valid
    extension, or a direct entry with a valid extension of one of the
    given paths that is a directory (and no such file). *)
Definition found_by (disk : Disk) (paths : list string) (f : string) : Prop :=
  exists path,
    path ∈ paths /\
    ((accepted disk path = true /\ f = path) \/
     (accepted disk path = false /\ is_dir disk path = true /\
      exists ext, ext ∈ valid_exts /\ f ∈ glob disk path ("*" +:+ ext))).

(** What [list(set(l))] is known to be: the elements of [l], each once. *)
Definition lists_the_set (list_set : list string -> list string) : Prop :=
  forall l, NoDup (list_set l) /\ forall x, x ∈ list_set l <-> x ∈ l.

(** Strings in the order of their characters. *)
Definition name_le : relation string :=
  fun s1 s2 => String.leb s1 s2 = true.

#[global] Instance name_le_dec (s1 s2 : string) : Decision (name_le s1 s2).
Proof. unfold name_le. apply _. Defined.

(** A directory with three entries, next to a file and a text file. *)
Definition sample_disk : Disk :=
  {| is_file := fun p => bool_decide (p ∈ ["intro.SVG"; "notes.txt";
                                           "talks/b.svg"; "talks/a.html";
                                           "talks/readme.md"]);
     is_dir := fun p => bool_decide (p = "talks");
     suffix_lower := fun p =>
       if bool_decide (p ∈ ["intro.SVG"; "talks/b.svg"]) then ".svg"
       else if bool_decide (p = "talks/a.html") then ".html"
       else if bool_decide (p = "notes.txt") then ".txt"
       else if bool_decide (p = "talks/readme.md") then ".md"
       else "";
     glob := fun p pattern =>
       if bool_decide (p = "talks") then
         if bool_decide (pattern = "*.svg") then ["talks/b.svg"]
         else if bool_decide (pattern = "*.html") then ["talks/a.html"]
         else []
       else [] |}.

(** * Properties *)

(** ** The step planner *)

Example scenario_A :
  _generate_steps (Sozi 1024 768 ["intro"; "body"; "end"])
  = ["#intro"; "#body"; "#end"].
Proof. reflexivity. Qed.

Example scenario_B :
  _generate_steps (JessyInk 1024 768 [0; 2]) = ["#1_0"; "#2_0"; "#2_1"; "#2_2"].
Proof. vm_compute. reflexivity. Qed.

Example fmt_04d_7 : Py.fmt_04d 7 = "0007".
Proof. vm_compute. reflexivity. Qed.

Section Planner.

Lemma range_length (n : Z) : length (Py.range n) = Z.to_nat n.
Proof. unfold Py.range. by rewrite length_map, length_seq. Qed.

Lemma range_lookup (n : Z) (j : nat) :
  (j < Z.to_nat n)%nat -> Py.range n !! j = Some (Z.of_nat j).
Proof.
  intros Hj. unfold Py.range.
  rewrite list_lookup_fmap, lookup_seq_lt by done. done.
Qed.

Lemma enumerate_from_length {A} (start : Z) (l : list A) :
  length (Py.enumerate_from start l) = length l.
Proof. revert start. induction l; intros; simpl; auto. Qed.

Lemma plan_from_cons (start e : Z) (es : list Z) :
  plan_from start (e :: es)
  = slide_steps start e ++ plan_from (start + 1) es.
Proof. reflexivity. Qed.

Lemma slide_steps_length (s e : Z) :
  0 <= e -> length (slide_steps s e) = Z.to_nat (e + 1).
Proof. intros. unfold slide_steps. by rewrite length_map, range_length. Qed.

Lemma sum_take_nonneg (es : list Z) (i : nat) :
  Forall (fun e => 0 <= e) es -> 0 <= Py.sum (take i es).
Proof.
  intros Hes. revert i.
  induction Hes as [|x l Hx _ IHl]; intros [|i]; simpl; try lia.
  specialize (IHl i). lia.
Qed.

Lemma plan_from_length (start : Z) (es : list Z) :
  Forall (fun e => 0 <= e) es ->
  Py.len (plan_from start es) = Py.sum es + Py.len es.
Proof.
  intros Hes. revert start. induction Hes as [|e es He _ IH]; intros start.
  - reflexivity.
  - rewrite plan_from_cons. unfold Py.len in *.
    rewrite length_app, slide_steps_length by done.
    rewrite Nat2Z.inj_add, IH. simpl. lia.
Qed.

Lemma plan_from_lookup (start : Z) (es : list Z) (i : nat) (e j : Z) :
  Forall (fun e => 0 <= e) es ->
  es !! i = Some e -> 0 <= j <= e ->
  plan_from start es !! Z.to_nat (slide_offset es i + j)
  = Some (jessyink_hash (start + Z.of_nat i) j).
Proof.
  intros Hes. revert start i.
  induction Hes as [|e0 es He0 Hes IH]; intros start i Hi Hj; [done|].
  rewrite plan_from_cons. destruct i as [|i]; simpl in Hi.
  - injection Hi as ->. unfold slide_offset. simpl.
    rewrite lookup_app_l by (rewrite slide_steps_length; lia).
    unfold slide_steps. rewrite list_lookup_fmap, range_lookup by lia.
    simpl. rewrite Z2Nat.id by lia. do 2 f_equal; lia.
  - pose proof (sum_take_nonneg es i Hes) as Hsum.
    rewrite lookup_app_r
      by (rewrite slide_steps_length; unfold slide_offset; simpl; lia).
    rewrite slide_steps_length by done.
    replace (Z.to_nat (slide_offset (e0 :: es) (S i) + j)
             - Z.to_nat (e0 + 1))%nat
      with (Z.to_nat (slide_offset es i + j))
      by (unfold slide_offset; simpl; lia).
    rewrite IH by done. do 2 f_equal. lia.
Qed.

Lemma plan_from_imap (n : nat) (es : list Z) :
  plan_from (Z.of_nat n) es
  = concat (imap (fun i e => slide_steps (Z.of_nat (n + i)) e) es).
Proof.
  revert n. induction es as [|e es IH]; intros n; [done|].
  rewrite plan_from_cons. cbn [imap concat].
  rewrite Nat.add_0_r. f_equal.
  replace (Z.of_nat n + 1) with (Z.of_nat (S n)) by lia.
  rewrite IH. f_equal. apply imap_ext. intros i x _. simpl.
  by rewrite Nat.add_succ_r.
Qed.

(** C1.  For a JessyInk (build-step) presentation whose slides have the
    non-negative effect counts [es = [e1; ...; ek]], the planner returns
    [sum es + k] steps; the slide at 0-based index [i] (slide number
    [i + 1]) with effect count [e] occupies the [e + 1] consecutive
    positions starting at [slide_offset es i], and the step at position
    [slide_offset es i + j], for [0 <= j <= e], is the address
    ["#<i+1>_<j>"]: slide-major, effect-minor, effect 0 first. *)
Theorem C1_build_step_plan (width height : Z) (es : list Z)
    (Hes : Forall (fun e => 0 <= e) es) :
  let steps := _generate_steps (JessyInk width height es) in
  Py.len steps = Py.sum es + Py.len es /\
  (forall (i : nat) (e j : Z),
      es !! i = Some e -> 0 <= j <= e ->
      steps !! Z.to_nat (slide_offset es i + j)
      = Some ("#" +:+ Py.str (Z.of_nat i + 1) +:+ "_" +:+ Py.str j)) /\
  steps = concat (imap (fun i e => slide_steps (Z.of_nat i) e) es).
Proof.
  intros steps.
  assert (steps = plan_from 0 es) as -> by reflexivity.
  split; [by apply plan_from_length|]. split.
  - intros i e j Hi Hj.
    rewrite (plan_from_lookup 0 es i e j) by done. reflexivity.
  - apply (plan_from_imap 0).
Qed.

Lemma C1_build_step_plan_witness :
  Forall (fun e => 0 <= e) [0; 2] /\
  _generate_steps (JessyInk 1024 768 [0; 2]) !! 3%nat = Some "#2_2".
Proof.
  assert (Forall (fun e => 0 <= e) [0; 2]) as H
    by (repeat constructor; lia).
  split; [exact H|].
  exact (proj1 (proj2 (C1_build_step_plan 1024 768 [0; 2] H))
           1%nat 2 2 eq_refl ltac:(lia)).
Defined.

(** C2.  For a Sozi (frame-based) presentation with [n] frame
    identifiers the planner returns [n] steps, one per identifier and in
    the order of the identifiers; the step of a frame is its identifier
    behind the fragment sign. *)
Theorem C2_frame_plan (width height : Z) (ids : list string) :
  let steps := _generate_steps (Sozi width height ids) in
  length steps = length ids /\
  (forall (i : nat) (frame_id : string),
      ids !! i = Some frame_id <-> steps !! i = Some ("#" +:+ frame_id)) /\
  steps = map (fun frame_id => "#" +:+ frame_id) ids.
Proof.
  intros steps. subst steps. cbn [_generate_steps].
  split; [apply length_map|]. split; [|reflexivity].
  intros i frame_id. rewrite list_lookup_fmap. split.
  - intros ->. reflexivity.
  - destruct (ids !! i) as [x|]; simpl; [|done].
    intros [= H]. by f_equal.
Qed.

(** The addresses of a JessyInk plan name their slide and effect step:
    different pairs give different addresses. *)

Lemma pretty_N_go_free (x : N) (s : string) :
  free_of "_"%char s = true -> free_of "_"%char (pretty_N_go x s) = true.
Proof.
  revert s. induction (N.lt_wf_0 x) as [x _ IH]; intros s Hs.
  destruct (decide (x = 0)%N) as [->|Hx].
  - by rewrite pretty_N_go_0.
  - rewrite pretty_N_go_step by lia. apply IH.
    + apply N.div_lt; lia.
    + cbn [free_of]. rewrite Hs, andb_true_r.
      unfold pretty_N_char. by repeat case_match.
Qed.

Lemma str_free (n : Z) : free_of "_"%char (Py.str n) = true.
Proof.
  unfold Py.str, pretty, pretty_Z, pretty, pretty_positive, pretty, pretty_N.
  destruct n as [|p|p]; [done| |]; case_decide; try done.
  - by apply pretty_N_go_free.
  - cbn [String.append free_of]. by apply pretty_N_go_free.
Qed.

Lemma append_separator_inj (c : Ascii.ascii) (a a' b b' : string) :
  free_of c a = true -> free_of c a' = true ->
  a +:+ String c b = a' +:+ String c b' -> a = a' /\ b = b'.
Proof.
  revert a'. induction a as [|d a IH]; intros [|d' a'] Ha Ha' Heq;
    cbn [String.append free_of] in *.
  - by injection Heq as ->.
  - injection Heq as <- _. by rewrite Ascii.eqb_refl in Ha'.
  - injection Heq as -> _. by rewrite Ascii.eqb_refl in Ha.
  - injection Heq as -> Heq.
    apply andb_true_iff in Ha as [_ Ha]. apply andb_true_iff in Ha' as [_ Ha'].
    destruct (IH a' Ha Ha' Heq) as [-> ->]. done.
Qed.

Lemma jessyink_hash_inj (s j s' j' : Z) :
  jessyink_hash s j = jessyink_hash s' j' -> s = s' /\ j = j'.
Proof.
  unfold jessyink_hash. cbn [String.append]. intros [= Heq].
  apply append_separator_inj in Heq as [Hs Hj]; [|apply str_free..].
  apply (inj pretty) in Hs. apply (inj pretty) in Hj. split; [lia|done].
Qed.

(** The effect counts that the in-page analysis reports are array lengths:
    there is at least one slide and no count is negative. *)
Lemma analyze_jessyink (g : PageGlobals) (width height : Z) (es : list Z) :
  analyze g = JessyInk width height es ->
  es <> [] /\ Forall (fun e => 0 <= e) es.
Proof.
  unfold analyze. destruct (sozi_presentation g); [done|].
  destruct (slides g) as [[|s rest]|]; try done.
  intros [= _ _ <-]. split; [done|].
  apply Forall_cons_2; [destruct (effects s); lia|].
  induction rest as [|s' rest IH]; constructor; [|done].
  destruct (effects s'); lia.
Qed.

End Planner.

(** ** Running computations step by step *)

Section Exec.

Variable env : Env.
Context {A B : Type}.

Lemma wp_ret (a : A) w (Q : Outcome A -> Prop) :
  Q {| events := []; final := w; result := Ok a |} -> wp (ret a) w Q.
Proof. auto. Qed.

Lemma wp_raise (e : exn) w (Q : Outcome A -> Prop) :
  Q {| events := []; final := w; result := Raise e |} -> wp (raise e) w Q.
Proof. auto. Qed.

Lemma wp_bind (m : M A) (k : A -> M B) w (Q : Outcome B -> Prop) :
  wp m w (fun o =>
            match result o with
            | Ok a => wp (k a) (final o) (fun o' => Q (after o o'))
            | Raise e => Q (raised B o e)
            end) ->
  wp (bind m k) w Q.
Proof. unfold wp, bind. destruct (result (m w)); auto. Qed.

Lemma wp_try_finally (body : M A) (cleanup : M unit) w
    (Q : Outcome A -> Prop) :
  wp body w (fun o => wp cleanup (final o) (fun c => Q (finished o c))) ->
  wp (try_finally body cleanup) w Q.
Proof. auto. Qed.

Lemma wp_try_except (body : M A) (handler : exn -> M A) w
    (Q : Outcome A -> Prop) :
  wp body w (fun o =>
               match result o with
               | Ok _ => Q o
               | Raise e =>
                   if is_Exception e
                   then wp (handler e) (final o) (fun h => Q (after o h))
                   else Q o
               end) ->
  wp (try_except body handler) w Q.
Proof.
  unfold wp, try_except. destruct (result (body w)) as [a|e]; auto.
  destruct (is_Exception e); auto.
Qed.

Lemma wp_call ev eff w (Q : Outcome unit -> Prop) :
  (forall e, fault env (clock w) = Some e ->
             Q {| events := [ev]; final := tick w; result := Raise e |}) ->
  (fault env (clock w) = None ->
   Q {| events := [ev]; final := eff (tick w); result := Ok tt |}) ->
  wp (call env ev eff) w Q.
Proof. unfold wp, call. destruct (fault env (clock w)); auto. Qed.

Lemma wp_ask ev (answer : nat -> A) w (Q : Outcome A -> Prop) :
  (forall e, fault env (clock w) = Some e ->
             Q {| events := [ev]; final := tick w; result := Raise e |}) ->
  (fault env (clock w) = None ->
   Q {| events := [ev]; final := tick w; result := Ok (answer (clock w)) |}) ->
  wp (ask env ev answer) w Q.
Proof. unfold wp, ask. destruct (fault env (clock w)); auto. Qed.

Lemma wp_perform ev eff w (Q : Outcome unit -> Prop) :
  Q {| events := [ev]; final := eff (tick w); result := Ok tt |} ->
  wp (perform ev eff) w Q.
Proof. auto. Qed.

Lemma wp_conseq (m : M A) w (P Q : Outcome A -> Prop) :
  P (m w) -> (forall o, P o -> Q o) -> wp m w Q.
Proof. unfold wp. auto. Qed.

Lemma clean_nil n : clean env n 0.
Proof. intros k Hk. lia. Qed.

Lemma clean_cons n len :
  fault env n = None -> clean env (S n) len -> clean env n (S len).
Proof.
  intros H0 H [|k] Hk.
  - by rewrite Nat.add_0_r.
  - rewrite Nat.add_succ_r. apply (H k). lia.
Qed.

Lemma clean_app n len1 len2 :
  clean env n len1 -> clean env (n + len1) len2 ->
  clean env n (len1 + len2).
Proof.
  intros H1 H2 k Hk. destruct (decide (k < len1)%nat) as [Hlt|Hge].
  - by apply H1.
  - replace (n + k)%nat with (n + len1 + (k - len1))%nat by lia.
    apply H2. lia.
Qed.

Lemma clean_at n len c :
  clean env n len -> (n <= c < n + len)%nat -> fault env c = None.
Proof.
  intros H Hc. replace c with (n + (c - n))%nat by lia. apply H. lia.
Qed.

End Exec.

(** Reduction of the world and outcome projections met while running. *)
Ltac norm :=
  cbn beta iota delta
    [events final result after raised finished
     clock driver browser fs tick set_driver set_browser set_file
     stop_driver id app] in *.

(** One step of a straight-line computation; a call splits into the case
    where it raises ([Hfault : fault env _ = Some e]) and the case where it
    returns. *)
Ltac wp_step :=
  lazymatch goal with
  | |- wp (bind _ _) _ _ => apply wp_bind
  | |- wp (mbind _ _) _ _ => apply wp_bind
  | |- wp (with_ _ _ _) _ _ => unfold with_ at 1; apply wp_bind
  | |- wp (try_finally _ _) _ _ => apply wp_try_finally
  | |- wp (try_except _ _) _ _ => apply wp_try_except
  | |- wp (ret _) _ _ => apply wp_ret
  | |- wp (mret _) _ _ => apply wp_ret
  | |- wp (raise _) _ _ => apply wp_raise
  | |- wp (call _ _ _) _ _ =>
      let e := fresh "e" in
      let Hfault := fresh "Hfault" in
      apply wp_call; [intros e Hfault | intros Hfault]
  | |- wp (ask _ _ _) _ _ =>
      let e := fresh "e" in
      let Hfault := fresh "Hfault" in
      apply wp_ask; [intros e Hfault | intros Hfault]
  | |- wp (perform _ _) _ _ => apply wp_perform
  | |- wp (notify _ ?cb _ _ _) _ _ =>
      unfold notify at 1; try (is_var cb; destruct cb)
  | |- wp (_analyze_presentation _ _) _ _ =>
      unfold _analyze_presentation at 1
  | |- wp (write_pdf _ _ _) _ _ => unfold write_pdf at 1
  end; norm.

Ltac wp_run := repeat wp_step.

(** Forget what the computation at the head of the goal does: only that it
    has some outcome. *)
Ltac wp_skip :=
  lazymatch goal with
  | |- wp ?m ?w ?Q =>
      let o := fresh "o" in
      change (Q (m w)); generalize (m w); intros o; norm
  end.

(** State the goal, which talks about the outcome [m w], as a [wp]. *)
Ltac wp_of m w :=
  pattern (m w);
  lazymatch goal with |- ?P _ => change (wp m w P) end.

(** A call that raised contradicts the assumption that the calls of the
    run were clean. *)
Ltac by_clean Hclean :=
  lazymatch goal with
  | Hf : fault _ ?c = Some _ |- _ =>
      exfalso;
      rewrite (clean_at _ _ _ c Hclean) in Hf;
      [discriminate
      |cbn [length]; rewrite ?length_app; cbn [length]; lia]
  end.

(** Building [clean] from the calls that are known to have returned. *)
Ltac fault_free :=
  match goal with
  | H : fault _ ?c = None |- fault _ ?d = None =>
      replace d with c by (cbn [clock tick] in *; lia); exact H
  end.

Ltac clean_build Hcl :=
  repeat first
    [ apply clean_nil
    | apply clean_cons; [fault_free|]
    | exact Hcl
    | apply clean_app ].

(** ** The capture loop *)

Section Loop.

Variable env : Env.

Lemma capture_calls_Forall (P : Event -> Prop) evs :
  (forall ev, is_capture_call ev = true -> P ev) ->
  forallb is_capture_call evs = true -> Forall P evs.
Proof.
  intros HP Hall. apply Forall_forall. intros ev Hev.
  apply HP. rewrite forallb_forall in Hall. apply Hall.
  by apply list_elem_of_In.
Qed.

Lemma capture_loop_post file_url tmp_dir cb total steps image_files w :
  loop_post env file_url tmp_dir cb total steps image_files w
    (capture_loop env file_url tmp_dir cb total steps image_files w).
Proof.
  revert image_files w.
  induction steps as [|[idx step_hash] steps IH]; intros image_files w.
  - unfold loop_post. cbn [capture_loop ret events final result length].
    rewrite Nat.add_0_r, app_nil_r. repeat split; auto.
    + congruence.
    + apply clean_nil.
    + discriminate.
  - cbn [capture_loop].
    lazymatch goal with |- ?P (?m ?w) => change (wp m w P) end.
    wp_run;
      try (apply wp_conseq with (1 := IH _ _);
           intros o' (Hclock & Hdriver & Hbrowser & Hfs & Hcalls & Hok
                      & Hraise));
      unfold loop_post; norm; cbn [length forallb is_capture_call andb].
    all: rewrite ?Hclock, ?Hdriver, ?Hbrowser, ?Hfs, ?Hcalls.
    all: split; [cbn [clock tick]; lia|].
    all: do 4 (split; [reflexivity|]).
    all: split.
    all: try (intros images Himages; discriminate).
    all: try (intros e' [= <-]; eexists; split; [|eassumption]; lia).
    all: try (intros e' He'; destruct (Hraise e' He') as (c & Hc & Hfc);
              exists c; split; [cbn [clock tick] in Hc; lia|done]).
    all: intros images Himages.
    all: destruct (Hok images Himages) as (-> & -> & Hclean).
    all: split; [reflexivity|].
    all: split; [by rewrite <- app_assoc|].
    all: cbn [clock tick] in Hclean.
    all: repeat (apply clean_cons; [assumption|]); exact Hclean.
Qed.

Lemma capture_loop_length file_url tmp_dir cb total steps image_files w :
  (length (events (capture_loop env file_url tmp_dir cb total steps
                     image_files w))
   <= length (capture_calls file_url tmp_dir cb total steps))%nat.
Proof.
  revert image_files w.
  induction steps as [|[idx step_hash] steps IH]; intros image_files w;
    [done|].
  cbn [capture_loop].
  lazymatch goal with
  | |- context [events (?m w)] => wp_of m w
  end.
  wp_run;
    try (lazymatch goal with
         | |- wp (capture_loop _ ?u ?t ?b ?n ?l _) _ _ =>
             apply wp_conseq
               with (P := fun o =>
                            (length (events o)
                             <= length (capture_calls u t b n l))%nat);
             [apply IH|intros o' Hlen]
         end);
    norm.
  all: unfold capture_calls in *; cbn [flat_map step_calls fst snd app length].
  all: rewrite ?length_app; cbn [length]; lia.
Qed.

Lemma capture_loop_within file_url tmp_dir cb total steps image_files w :
  loop_within env file_url tmp_dir cb total steps image_files w
    (capture_loop env file_url tmp_dir cb total steps image_files w).
Proof. split; [apply capture_loop_post|apply capture_loop_length]. Qed.

End Loop.

(** ** The rendering session *)

Section Session.

Variable env : Env.

(** C8.  A conversion started with no session alive ends with none alive,
    whether it returns or raises and whichever calls fail: once the
    Playwright driver has started, the last thing the conversion does is
    to stop it (which ends the browsers it launched), and once driver,
    browser, context and page have been acquired, [browser.close()] is
    called after everything else that is done with the page and before
    the conversion returns or the exception propagates. *)
Theorem C8_session_released file_path output_path quality cb w :
  driver w = false -> browser w = false ->
  let o := convert_presentation env file_path output_path quality cb w in
  driver (final o) = false /\ browser (final o) = false /\
  (events o = [PlaywrightStart] \/
   exists evs, events o = PlaywrightStart :: evs ++ [PlaywrightStop]) /\
  (clean env (clock w) 4 ->
   exists body,
     events o = [PlaywrightStart; Launch true; NewContext quality; NewPage]
                ++ body ++ [BrowserClose; PlaywrightStop]).
Proof.
  intros Hd Hb o. subst o.
  wp_of (convert_presentation env file_path output_path quality cb) w.
  unfold convert_presentation.
  wp_step. wp_step.
  { (* the driver does not start *)
    split; [done|]. split; [done|]. split; [by left|].
    intros H. by_clean H. }
  do 3 wp_step.
  { wp_run. do 2 (split; [done|]). split; [right; by exists [Launch true]|].
    intros H. by_clean H. }
  wp_step. wp_step.
  { wp_run. do 2 (split; [done|]).
    split; [right; by exists [Launch true; NewContext quality]|].
    intros H. by_clean H. }
  wp_step. wp_step.
  { wp_run. do 2 (split; [done|]).
    split; [right; by exists [Launch true; NewContext quality; NewPage]|].
    intros H. by_clean H. }
  wp_step. wp_skip. wp_step; wp_run.
  all: do 2 (split; [done|]).
  all: split;
    [right;
     by exists (Launch true :: NewContext quality :: NewPage
                :: events o ++ [BrowserClose])
    |intros _; exists (events o); by rewrite <- app_assoc].
Qed.

End Session.

(** ** The quality scale *)

Section Quality.

Variable env : Env.

Lemma navigations_erase evs :
  navigations (map erase_quality evs) = navigations evs.
Proof.
  induction evs as [|ev evs IH]; [done|].
  destruct ev; simpl; unfold navigations in *; simpl; by rewrite ?IH.
Qed.

Lemma screenshots_erase evs :
  screenshots (map erase_quality evs) = screenshots evs.
Proof.
  induction evs as [|ev evs IH]; [done|].
  destruct ev; simpl; unfold screenshots in *; simpl; by rewrite ?IH.
Qed.

Lemma assembled_erase evs :
  assembled (map erase_quality evs) = assembled evs.
Proof.
  induction evs as [|ev evs IH]; [done|].
  destruct ev; simpl; unfold assembled in *; simpl; by rewrite ?IH.
Qed.

(** The quality is used by one call only, and what follows that call is
    the same computation from the same world. *)
Lemma session_quality (rest : M unit) (q1 q2 : Z) (w : World) :
  let session q : M unit :=
    with_ (call env PlaywrightStart (set_driver true))
          (perform PlaywrightStop stop_driver)
          (fun _ => call env (Launch true) (set_browser true) ;;
                    call env (NewContext q) id ;; rest) in
  map erase_quality (events (session q1 w))
  = map erase_quality (events (session q2 w)) /\
  result (session q1 w) = result (session q2 w) /\
  final (session q1 w) = final (session q2 w).
Proof.
  intros session. subst session.
  unfold with_, try_finally, mbind, M_bind, bind, call, perform.
  cbn beta.
  destruct (fault env (clock w)); [done|]. norm.
  destruct (fault env (S (clock w))); [done|]. norm.
  destruct (fault env (S (S (clock w)))); [done|]. norm.
  destruct (result (rest _)); norm; by rewrite ?map_app.
Qed.

(** C6.  Two conversions that differ only in the quality scale, run in
    the same outside world (same document, so same detected metadata,
    and same failures), make the same calls in the same order except for
    the scale factor given to [new_context], and end alike; so they
    navigate to the same step addresses, take the same screenshots and
    assemble the same number of pages.  The planner itself has no
    quality input. *)
Theorem C6_quality_independent file_path output_path (q1 q2 : Z) cb w :
  let o1 := convert_presentation env file_path output_path q1 cb w in
  let o2 := convert_presentation env file_path output_path q2 cb w in
  map erase_quality (events o1) = map erase_quality (events o2) /\
  result o1 = result o2 /\
  navigations (events o1) = navigations (events o2) /\
  screenshots (events o1) = screenshots (events o2) /\
  assembled (events o1) = assembled (events o2).
Proof.
  intros o1 o2.
  destruct (session_quality
              (call env NewPage id ;;
               try_finally
                 (convert_body env (as_uri env file_path) output_path cb)
                 (call env BrowserClose (set_browser false)))
              q1 q2 w) as (Hev & Hres & _).
  change (map erase_quality (events o1) = map erase_quality (events o2))
    in Hev.
  change (result o1 = result o2) in Hres.
  split; [done|]. split; [done|].
  rewrite <- (navigations_erase (events o1)), <- (navigations_erase (events o2)).
  rewrite <- (screenshots_erase (events o1)), <- (screenshots_erase (events o2)).
  rewrite <- (assembled_erase (events o1)), <- (assembled_erase (events o2)).
  by rewrite Hev.
Qed.

End Quality.

(** ** Conversions: running through the whole job *)

(** Running up to, through and past the capture loop. *)
Ltac wp_go env :=
  repeat first
    [ wp_step
    | lazymatch goal with
      | |- wp (capture_loop _ _ _ _ _ _ _) _ _ =>
          let ol := fresh "ol" in
          let Hclock := fresh "Hclock" in
          let Hdriver := fresh "Hdriver" in
          let Hbrowser := fresh "Hbrowser" in
          let Hfs := fresh "Hfs" in
          let Hcalls := fresh "Hcalls" in
          let Hok := fresh "Hok" in
          let Hraise := fresh "Hraise" in
          apply wp_conseq with (1 := capture_loop_post env _ _ _ _ _ _ _);
          intros ol (Hclock & Hdriver & Hbrowser & Hfs & Hcalls & Hok
                     & Hraise);
          norm
      | |- match result ?o with _ => _ end =>
          let images := fresh "images" in
          let e := fresh "e" in
          let Hres := fresh "Hres" in
          destruct (result o) as [images|e] eqn:Hres; norm;
          try (lazymatch goal with
               | H : forall e', Raise e = Raise e' -> _ |- _ =>
                   let c := fresh "c" in
                   let Hc := fresh "Hc" in
                   let Hfault := fresh "Hfault" in
                   destruct (H e eq_refl) as (c & Hc & Hfault); clear H
               end)
      | |- wp (match ?x with _ => _ end) _ _ =>
          let Hx := fresh "Hcase" in
          destruct x eqn:Hx; norm
      end ].

(** The same, with the bound on the calls of the loop at hand. *)
Ltac wp_len env :=
  repeat first
    [ wp_step
    | lazymatch goal with
      | |- wp (capture_loop _ _ _ _ _ _ _) _ _ =>
          let ol := fresh "ol" in
          let Hclock := fresh "Hclock" in
          let Hdriver := fresh "Hdriver" in
          let Hbrowser := fresh "Hbrowser" in
          let Hfs := fresh "Hfs" in
          let Hcalls := fresh "Hcalls" in
          let Hok := fresh "Hok" in
          let Hraise := fresh "Hraise" in
          let Hlen := fresh "Hlen" in
          apply wp_conseq with (1 := capture_loop_within env _ _ _ _ _ _ _);
          intros ol ((Hclock & Hdriver & Hbrowser & Hfs & Hcalls & Hok
                      & Hraise) & Hlen);
          norm
      | |- match result ?o with _ => _ end =>
          let images := fresh "images" in
          let e := fresh "e" in
          let Hres := fresh "Hres" in
          destruct (result o) as [images|e] eqn:Hres; norm;
          try (lazymatch goal with
               | H : forall e', Raise e = Raise e' -> _ |- _ =>
                   let c := fresh "c" in
                   let Hc := fresh "Hc" in
                   let Hfault := fresh "Hfault" in
                   destruct (H e eq_refl) as (c & Hc & Hfault); clear H
               end)
      | |- wp (match ?x with _ => _ end) _ _ =>
          let Hx := fresh "Hcase" in
          destruct x eqn:Hx; norm
      end ].

Section Success.

Variable env : Env.

Lemma success_trace file_path output_path quality cb w :
  let o := convert_presentation env file_path output_path quality cb w in
  result o = Ok tt ->
  events o = success_calls env file_path output_path quality cb w /\
  fs (final o)
  = <[output_path := PdfOf (job_images env file_path cb w)]> (fs w) /\
  _generate_steps (detected env file_path) <> [].
Proof.
  intros o. subst o.
  wp_of (convert_presentation env file_path output_path quality cb) w.
  unfold convert_presentation, convert_body.
  wp_go env.
  all: try (intros; discriminate).
  all: intros _; destruct (Hok _ eq_refl) as (Hev & Himg & _).
  all: unfold success_calls, job_images, job_tmp_dir, detected,
         prelude_calls; rewrite Hcase; cbn [length app Nat.add].
  all: rewrite <- Himg, <- Hev, Hfs.
  all: split; [by rewrite <- ?app_assoc|].
  all: split; [by rewrite insert_insert_eq|].
  all: intros Hnil; rewrite Hnil in Himg; discriminate.
Qed.

End Success.

(** A property of every event of a run, given that it holds of the capture
    calls. *)
Ltac each_event :=
  repeat first
    [ apply Forall_nil_2
    | apply Forall_cons_2; [cbn; try done; auto|]
    | apply Forall_app_2
    | lazymatch goal with
      | H : forallb is_capture_call ?evs = true |- Forall _ ?evs =>
          apply capture_calls_Forall with (2 := H);
          let ev := fresh "ev" in intros ev; destruct ev; cbn; done
      end ].

Section Rejections.

Variable env : Env.

(** C3.  When the analysis finds neither framework, the planner returns
    no step and the conversion raises, whatever else happens: it makes no
    call other than starting the session, the first progress report,
    loading the document, waiting, inspecting, and ending the session, so
    no step is navigated to, no screenshot is taken, no output is opened
    and every file is as before.  Unless one of these calls fails, the
    exception is the [ValueError] that names the unsupported
    presentation, raised right after the inspection. *)
Theorem C3_unknown_rejected file_path output_path quality cb w :
  detected env file_path = UnknownInfo ->
  let o := convert_presentation env file_path output_path quality cb w in
  _generate_steps (detected env file_path) = [] /\
  raises o /\
  Forall (inspection_call (as_uri env file_path)) (events o) /\
  screenshots (events o) = [] /\
  assembled (events o) = [] /\
  fs (final o) = fs w /\
  (clean env (clock w) (length (events o)) ->
   result o = Raise (ValueError unsupported_message) /\
   events o
   = [PlaywrightStart; Launch true; NewContext quality; NewPage]
     ++ (if cb then [Progress 0 0 loading_message] else [])
     ++ [Goto (as_uri env file_path); WaitForLoadState "networkidle";
         Evaluate; BrowserClose; PlaywrightStop]).
Proof.
  intros Hinfo o. subst o. rewrite Hinfo. split; [reflexivity|].
  unfold detected in Hinfo.
  wp_of (convert_presentation env file_path output_path quality cb) w.
  unfold convert_presentation, convert_body.
  wp_go env.
  all: try congruence.
  all: split; [unfold raises; cbn; eauto|].
  all: split; [each_event|].
  all: do 3 (split; [reflexivity|]).
  all: intros Hclean; try by_clean Hclean.
  all: done.
Qed.

(** C7.  When the plan is empty (a Sozi document that declares no frame,
    say), the conversion raises, whatever else happens; it never opens
    the output, hands nothing to the assembler and leaves every file as
    it was.  If the document is of a known kind and no call fails, the
    exception is the [RuntimeError] saying that no image was generated,
    raised when the empty list of images is found, before the output is
    opened. *)
Theorem C7_empty_plan_rejected file_path output_path quality cb w :
  _generate_steps (detected env file_path) = [] ->
  let o := convert_presentation env file_path output_path quality cb w in
  raises o /\
  Forall (fun ev => is_output_call ev = false) (events o) /\
  fs (final o) = fs w /\
  (detected env file_path <> UnknownInfo ->
   clean env (clock w) (length (events o)) ->
   result o = Raise (RuntimeError no_images_message)).
Proof.
  intros Hplan o. subst o. unfold detected in *.
  wp_of (convert_presentation env file_path output_path quality cb) w.
  unfold convert_presentation, convert_body.
  wp_go env.
  all: try rewrite Hcase in *.
  all: try (destruct (Hok _ eq_refl) as (_ & Himg & _);
            rewrite Hplan in Himg; discriminate).
  all: split; [unfold raises; cbn; eauto|].
  all: split; [each_event|].
  all: split; [by rewrite ?Hfs|].
  all: intros Hknown Hclean; try by_clean Hclean.
  all: done.
Qed.

End Rejections.

(** ** The output location *)

Ltac find_event :=
  first
    [ apply list_elem_of_here
    | apply list_elem_of_further; find_event
    | apply elem_of_app; first [left; find_event | right; find_event] ].

Section Output.

Variable env : Env.

Lemma capture_calls_length file_url tmp_dir cb total steps :
  length (capture_calls file_url tmp_dir cb total steps)
  = ((if cb then 5 else 4) * length steps)%nat.
Proof.
  induction steps as [|step steps IH]; [by destruct cb|].
  unfold capture_calls in *. cbn [flat_map]. rewrite length_app, IH.
  destruct cb; cbn [step_calls length app]; lia.
Qed.

Lemma enumerate_length {A} (l : list A) :
  length (Py.enumerate l) = length l.
Proof. apply enumerate_from_length. Qed.

Lemma calls_before_assembly_spec file_path output_path quality cb w :
  _generate_steps (detected env file_path) <> [] ->
  success_calls env file_path output_path quality cb w
    !! calls_before_assembly env file_path cb
  = Some (OpenWb output_path).
Proof.
  intros Hplan. unfold success_calls, calls_before_assembly.
  destruct (detected env file_path) as [width height data|width height data|];
    [| |done].
  all: rewrite !lookup_app_r; rewrite ?length_app, ?capture_calls_length,
         ?enumerate_length; destruct cb; cbn [length prelude_calls app];
         try lia.
  all: match goal with
       | |- _ !! ?n = _ => replace n with 0%nat by lia
       end; reflexivity.
Qed.

End Output.

Section Output_location.

Variable env : Env.






End Output_location.

(** ** Progress reports *)

Section Progress.

Variable env : Env.

Lemma progress_reports_app evs1 evs2 :
  progress_reports (evs1 ++ evs2)
  = progress_reports evs1 ++ progress_reports evs2.
Proof. apply omap_app. Qed.

Lemma progress_reports_capture_calls file_url tmp_dir total
    (start : nat) (steps : list string) :
  progress_reports
    (capture_calls file_url tmp_dir true total
       (Py.enumerate_from (Z.of_nat start) steps))
  = map (fun i => (Z.of_nat i, total, capturing_message (Z.of_nat i) total))
        (seq (S start) (length steps)).
Proof.
  revert start. induction steps as [|step_hash steps IH]; intros start.
  - reflexivity.
  - cbn [Py.enumerate_from capture_calls flat_map length seq map].
    rewrite progress_reports_app.
    replace (Z.of_nat start + 1) with (Z.of_nat (S start)) by lia.
    change (flat_map (step_calls file_url tmp_dir true total)
              (Py.enumerate_from (Z.of_nat (S start)) steps))
      with (capture_calls file_url tmp_dir true total
              (Py.enumerate_from (Z.of_nat (S start)) steps)).
    rewrite IH. cbn [step_calls fst snd app].
    replace (Z.of_nat start + 1) with (Z.of_nat (S start)) by lia.
    reflexivity.
Qed.

(** C10.  In a conversion with a progress callback that returns, the
    callback is called [n + 2] times for a plan of [n] steps: first with
    (0, 0) and the loading message, then with (i, n) for i = 1, ..., n in
    increasing order, and last with (n, n) and the generating message.
    A document of a known kind with an empty plan cannot be converted
    (see C7), but until it is rejected the same holds of it when no call
    fails: the reports are (0, 0) loading and (0, 0) generating. *)
Theorem C10_progress_sequence file_path output_path quality w :
  let o := convert_presentation env file_path output_path quality true w in
  let n := length (_generate_steps (detected env file_path)) in
  (result o = Ok tt ->
   progress_reports (events o) = expected_reports n /\
   length (progress_reports (events o)) = (n + 2)%nat) /\
  (n = 0%nat -> detected env file_path <> UnknownInfo ->
   clean env (clock w) (length (events o)) ->
   progress_reports (events o)
   = [(0, 0, loading_message); (0, 0, generating_message)]).
Proof.
  intros o n. split.
  - intros Hok.
    destruct (success_trace env file_path output_path quality true w Hok)
      as (Hev & _ & Hplan).
    assert (progress_reports (events o) = expected_reports n) as Hrep.
    { fold o in Hev. rewrite Hev. unfold success_calls, expected_reports.
      subst n. unfold Py.enumerate, Py.len.
      change 0 with (Z.of_nat 0) at 1.
      destruct (detected env file_path) as [wd ht data|wd ht data|];
        [| |done].
      all: rewrite !progress_reports_app, progress_reports_capture_calls.
      all: reflexivity. }
    split; [done|]. rewrite Hrep. unfold expected_reports.
    cbn [length]. rewrite length_app, length_map, length_seq.
    cbn [length]. lia.
  - subst o n. intros Hn Hknown. apply length_zero_iff_nil in Hn.
    unfold detected in *.
    wp_of (convert_presentation env file_path output_path quality true) w.
    unfold convert_presentation, convert_body.
    wp_go env.
    all: try rewrite Hcase in *.
    all: try done.
    all: try (destruct (Hok _ eq_refl) as (_ & Himg & _);
              rewrite Hn in Himg; discriminate).
    all: intros Hclean; try by_clean Hclean.
    all: destruct (Hok _ eq_refl) as (Hev & _ & _).
    all: rewrite Hev, Hn; reflexivity.
Qed.

Lemma followed_by_lookup (first then_ : Event -> bool) evs a b x y :
  evs !! a = Some x -> first x = true ->
  evs !! b = Some y -> then_ y = true ->
  (a < b)%nat ->
  followed_by first then_ evs = true.
Proof.
  revert a b. induction evs as [|ev evs IH]; intros a b Ha Hx Hb Hy Hab;
    [done|].
  cbn [followed_by]. destruct b as [|b]; [lia|]. cbn in Hb.
  destruct a as [|a]; cbn in Ha.
  - injection Ha as ->. rewrite Hx. cbn [andb].
    apply orb_true_intro. left. apply existsb_exists. exists y.
    split; [|done]. apply list_elem_of_In. by eapply list_elem_of_lookup_2.
  - apply orb_true_intro. right. apply (IH a b); auto. lia.
Qed.

Lemma step_calls_length file_url tmp_dir total step :
  length (step_calls file_url tmp_dir true total step) = 5%nat.
Proof. reflexivity. Qed.

Lemma capture_calls_lookup file_url tmp_dir total (start : nat)
    (steps : list string) (i j : nat) (step_hash : string) :
  steps !! i = Some step_hash -> (j < 5)%nat ->
  capture_calls file_url tmp_dir true total
    (Py.enumerate_from (Z.of_nat start) steps) !! (5 * i + j)%nat
  = step_calls file_url tmp_dir true total
      (Z.of_nat (start + i), step_hash) !! j.
Proof.
  revert start i. induction steps as [|h steps IH]; intros start i Hi Hj;
    [done|].
  cbn [Py.enumerate_from capture_calls flat_map].
  destruct i as [|i]; cbn in Hi.
  - injection Hi as ->. rewrite Nat.mul_0_r, Nat.add_0_l, Nat.add_0_r.
    by rewrite lookup_app_l by (rewrite step_calls_length; lia).
  - rewrite lookup_app_r by (rewrite step_calls_length; lia).
    rewrite step_calls_length.
    replace (5 * S i + j - 5)%nat with (5 * i + j)%nat by lia.
    replace (Z.of_nat start + 1) with (Z.of_nat (S start)) by lia.
    change (flat_map (step_calls file_url tmp_dir true total)
              (Py.enumerate_from (Z.of_nat (S start)) steps))
      with (capture_calls file_url tmp_dir true total
              (Py.enumerate_from (Z.of_nat (S start)) steps)).
    rewrite (IH (S start) i Hi Hj). do 3 f_equal. lia.
Qed.

(** C5, as the code has it.  In a conversion with a progress callback
    that returns, the progress report of a step is made before the work
    of the step: the report for step [i + 1] is immediately followed by
    the navigation to the address of the step, the reload, the settling
    delay and the screenshot of the step, in this order. *)
Theorem C5_progress_before_step_work file_path output_path quality w :
  let o := convert_presentation env file_path output_path quality true w in
  let steps := _generate_steps (detected env file_path) in
  let total := Py.len steps in
  let tmp := job_tmp_dir env file_path true w in
  result o = Ok tt ->
  forall (i : nat) (step_hash : string),
    steps !! i = Some step_hash ->
    let k := (4 + length (prelude_calls "" true (detected env file_path))
              + 5 * i)%nat in
    let current := Z.of_nat i + 1 in
    events o !! k
    = Some (Progress current total (capturing_message current total)) /\
    events o !! (k + 1)%nat
    = Some (Goto (as_uri env file_path +:+ step_hash)) /\
    events o !! (k + 2)%nat = Some Reload /\
    events o !! (k + 3)%nat = Some (Sleep TRANSITION_DELAY) /\
    events o !! (k + 4)%nat = Some (Screenshot (img_path tmp current)) /\
    progress_before_capture (events o) tmp total current = true.
Proof.
  intros o steps total tmp Hok i step_hash Hi k current.
  destruct (success_trace env file_path output_path quality true w Hok)
    as (Hev & _ & _).
  fold o in Hev.
  assert (forall j, (j < 5)%nat ->
            events o !! (k + j)%nat
            = step_calls (as_uri env file_path) tmp true total
                (Z.of_nat i, step_hash) !! j) as Hstep.
  { intros j Hj. rewrite Hev. unfold success_calls.
    rewrite lookup_app_r by (cbn [length]; lia).
    assert (length (prelude_calls (as_uri env file_path) true
                      (detected env file_path))
            = length (prelude_calls "" true (detected env file_path)))
      as Hpre by (by destruct (detected env file_path)).
    rewrite lookup_app_r by (rewrite Hpre; cbn [length]; lia).
    rewrite Hpre. cbn [length].
    replace (k + j - 4
             - length (prelude_calls "" true (detected env file_path)))%nat
      with (5 * i + j)%nat by lia.
    rewrite lookup_app_l.
    - apply (capture_calls_lookup _ _ _ 0 steps i j step_hash Hi Hj).
    - rewrite capture_calls_length, enumerate_length.
      apply lookup_lt_Some in Hi. fold steps. lia. }
  pose proof (Hstep 0%nat ltac:(lia)) as H0.
  pose proof (Hstep 1%nat ltac:(lia)) as H1.
  pose proof (Hstep 2%nat ltac:(lia)) as H2.
  pose proof (Hstep 3%nat ltac:(lia)) as H3.
  pose proof (Hstep 4%nat ltac:(lia)) as H4.
  rewrite Nat.add_0_r in H0. cbn in H0, H1, H2, H3, H4.
  repeat split; try done.
  unfold progress_before_capture.
  eapply followed_by_lookup; [exact H0| |exact H4| |lia].
  - cbn. by rewrite !Z.eqb_refl.
  - cbn. apply String.eqb_refl.
Qed.

End Progress.

(** ** The batch driver *)

Section Batch.

Variable env : Env.

(** A conversion starts the driver once, as its first call, and prints
    nothing; an exception it raises is one of its own, which are
    [Exception]s, or was raised by a call. *)
Lemma convert_outcome file_path output_path quality cb w :
  convert_post env
    (convert_presentation env file_path output_path quality cb w).
Proof.
  wp_of (convert_presentation env file_path output_path quality cb) w.
  unfold convert_presentation, convert_body.
  wp_go env.
  all: unfold convert_post; norm.
  all: split; [eexists; split; [reflexivity|each_event]|].
  all: intros e' He'; try discriminate.
  all: injection He' as <-; eauto.
Qed.

Lemma omap_inner {A} (f : Event -> option A) evs :
  (forall ev, is_inner_call ev = true -> f ev = None) ->
  Forall (fun ev => is_inner_call ev = true) evs ->
  omap f evs = [].
Proof.
  intros Hf Hall. induction Hall as [|ev evs Hev _ IH]; [done|].
  cbn. by rewrite (Hf ev Hev), IH.
Qed.







End Batch.

(** ** Runs in a concrete outside world *)

Section Runs.

(** A Sozi document with the frames of scenario A, and nothing failing. *)
Let quiet : Env := world_with no_fault (sozi_page ["intro"; "body"; "end"]).

Example scenario_A_run :
  let o := convert_presentation quiet "/talk.svg" "/talk.pdf" 4 true (idle ∅) in
  result o = Ok tt /\
  navigations (events o)
  = ["file:///talk.svg"; "file:///talk.svg#intro"; "file:///talk.svg#body";
     "file:///talk.svg#end"] /\
  screenshots (events o)
  = ["/tmp/tmpdir/0001.png"; "/tmp/tmpdir/0002.png"; "/tmp/tmpdir/0003.png"] /\
  fs (final o) !! "/talk.pdf"
  = Some (PdfOf ["/tmp/tmpdir/0001.png"; "/tmp/tmpdir/0002.png";
                 "/tmp/tmpdir/0003.png"]).
Proof. vm_compute. repeat split. Qed.

Example scenario_B_run :
  let env := world_with no_fault (jessyink_page [0; 2]%nat) in
  let o := convert_presentation env "/deck.svg" "/deck.pdf" 1 false (idle ∅) in
  detected env "/deck.svg" = JessyInk 1024 768 [0; 2] /\
  result o = Ok tt /\
  navigations (events o)
  = ["file:///deck.svg"; "file:///deck.svg#1_0"; "file:///deck.svg#2_0";
     "file:///deck.svg#2_1"; "file:///deck.svg#2_2"] /\
  length (screenshots (events o)) = 4%nat.
Proof. vm_compute. repeat split. Qed.

Example one_step_run :
  events (convert_presentation (world_with no_fault (sozi_page ["intro"]))
            "/talk.svg" "/talk.pdf" 4 true (idle ∅))
  = [PlaywrightStart; Launch true; NewContext 4; NewPage;
     Progress 0 0 loading_message; Goto "file:///talk.svg";
     WaitForLoadState "networkidle"; Evaluate; AddStyleTag sozi_style;
     SetViewportSize 800 600; TempDirCreate;
     Progress 1 1 "Capturando 1/1"; Goto "file:///talk.svg#intro"; Reload;
     Sleep 600; Screenshot "/tmp/tmpdir/0001.png";
     Progress 1 1 generating_message; OpenWb "/talk.pdf";
     Img2pdfConvert ["/tmp/tmpdir/0001.png"]; FileWrite "/talk.pdf";
     FileClose "/talk.pdf"; TempDirCleanup; BrowserClose; PlaywrightStop].
Proof. vm_compute. reflexivity. Qed.

Lemma C3_unknown_rejected_witness :
  let env := world_with no_fault plain_page in
  detected env "/page.html" = UnknownInfo /\
  result (convert_presentation env "/page.html" "/page.pdf" 4 true (idle ∅))
  = Raise (ValueError unsupported_message).
Proof.
  intros env. split; [reflexivity|].
  refine (proj1 (proj2 (proj2 (proj2 (proj2 (proj2 (proj2
            (C3_unknown_rejected env "/page.html" "/page.pdf" 4 true (idle ∅)
               eq_refl)))))) _)).
  intros k _. reflexivity.
Defined.


Example assembly_failure_truncates :
  let o := convert_presentation
             (world_with (fault_at 18 (LibraryError "img2pdf"))
                         (sozi_page ["intro"]))
             "/talk.svg" "/talk.pdf" 4 true
             (idle {[ "/talk.pdf" := Blob "last week's export" ]}) in
  result o = Raise (LibraryError "img2pdf") /\
  fs (final o) !! "/talk.pdf" = Some Truncated.
Proof. vm_compute. split; reflexivity. Qed.


(** In the conversion of a two-frame document, progress for step 1 of 2 is
    reported before the screenshot of step 1 and never after it. *)
Lemma C5_counterexample :
  ~ progress_reported_after_work
      (world_with no_fault (sozi_page ["intro"; "body"]))
      "/talk.svg" "/talk.pdf" 4 (idle ∅).
Proof.
  unfold progress_reported_after_work. intros H.
  specialize (H ltac:(vm_compute; reflexivity) 1 ltac:(vm_compute; split; discriminate)).
  vm_compute in H. discriminate H.
Qed.

Lemma C5_progress_before_step_work_witness :
  let env := world_with no_fault (sozi_page ["intro"; "body"]) in
  let o := convert_presentation env "/talk.svg" "/talk.pdf" 4 true (idle ∅) in
  (result o = Ok tt /\
   _generate_steps (detected env "/talk.svg") !! 1%nat = Some "#body") /\
  events o !! 16%nat = Some (Progress 2 2 (capturing_message 2 2)) /\
  events o !! 20%nat = Some (Screenshot "/tmp/tmpdir/0002.png").
Proof.
  intros env o.
  assert (result o = Ok tt) as Hok by (vm_compute; reflexivity).
  assert (_generate_steps (detected env "/talk.svg") !! 1%nat = Some "#body")
    as Hstep by reflexivity.
  split; [by split|].
  pose proof (C5_progress_before_step_work env "/talk.svg" "/talk.pdf" 4
                (idle ∅) Hok 1%nat "#body" Hstep) as (H0 & _ & _ & _ & H4 & _).
  split; [exact H0|exact H4].
Defined.

Lemma C7_empty_plan_rejected_witness :
  let env := world_with no_fault (sozi_page []) in
  let o := convert_presentation env "/empty.svg" "/empty.pdf" 4 true (idle ∅) in
  _generate_steps (detected env "/empty.svg") = [] /\
  result o = Raise (RuntimeError no_images_message) /\
  fs (final o) = fs (idle ∅).
Proof.
  intros env o.
  assert (_generate_steps (detected env "/empty.svg") = []) as Hplan
    by reflexivity.
  split; [exact Hplan|].
  pose proof (C7_empty_plan_rejected env "/empty.svg" "/empty.pdf" 4 true
                (idle ∅) Hplan) as (_ & _ & Hfs & Herr).
  split; [|exact Hfs].
  apply Herr.
  - discriminate.
  - intros k _. reflexivity.
Defined.

(** When [new_context] raises, the [try] block is not entered and
    [browser.close()] is not called: the browser goes with the driver. *)
Example new_context_failure_run :
  let env := world_with (fault_at 2 (LibraryError "Invalid scale"))
                        (sozi_page ["intro"]) in
  let o := convert_presentation env "/talk.svg" "/talk.pdf" 4 true (idle ∅) in
  events o = [PlaywrightStart; Launch true; NewContext 4; PlaywrightStop] /\
  result o = Raise (LibraryError "Invalid scale") /\
  browser (final o) = false /\ driver (final o) = false.
Proof. vm_compute. repeat split. Qed.

Lemma C8_session_released_witness :
  let env := world_with (fault_at 9 (LibraryError "Target closed"))
                        (sozi_page ["intro"]) in
  let o := convert_presentation env "/talk.svg" "/talk.pdf" 4 true (idle ∅) in
  (driver (idle ∅) = false /\ browser (idle ∅) = false) /\
  driver (final o) = false /\ browser (final o) = false.
Proof.
  intros env o. split; [by split|].
  pose proof (C8_session_released env "/talk.svg" "/talk.pdf" 4 true (idle ∅)
                eq_refl eq_refl) as (Hd & Hb & _).
  split; [exact Hd|exact Hb].
Defined.

Example posix_paths :
  posix_with_suffix "talks/b.html" ".pdf" = "talks/b.pdf" /\
  posix_with_suffix "a.tar.gz" ".pdf" = "a.tar.pdf" /\
  posix_with_suffix "talks.d/.hidden" ".pdf" = "talks.d/.hidden.pdf" /\
  posix_name "talks/b.html" = "b.html".
Proof. vm_compute. repeat split. Qed.

Example batch_run :
  let env := world_with (fault_at 6 (LibraryError "net::ERR_FILE_NOT_FOUND"))
                        (sozi_page ["intro"]) in
  let p := main env ["a.svg"; "b.html"] 4 (idle ∅) in
  exit_code p = 0 /\
  verdicts (trace p)
  = [Failed "a.svg" (LibraryError "net::ERR_FILE_NOT_FOUND");
     Converted "b.pdf"].
Proof. vm_compute. split; reflexivity. Qed.

Example interrupted_batch :
  let env := world_with (fault_at 6 KeyboardInterrupt) (sozi_page ["intro"]) in
  let p := main env ["a.svg"; "b.html"] 4 (idle ∅) in
  exit_code p = 0 /\ length (sessions (trace p)) = 1%nat /\
  last (trace p) = Some (Print Interrupted).
Proof. vm_compute. repeat split. Qed.


Lemma C10_progress_sequence_witness :
  let env := world_with no_fault (sozi_page ["intro"; "body"]) in
  let o := convert_presentation env "/talk.svg" "/talk.pdf" 4 true (idle ∅) in
  result o = Ok tt /\
  progress_reports (events o)
  = [(0, 0, loading_message); (1, 2, capturing_message 1 2);
     (2, 2, capturing_message 2 2); (2, 2, generating_message)].
Proof.
  intros env o.
  assert (result o = Ok tt) as Hok by (vm_compute; reflexivity).
  split; [exact Hok|].
  exact (proj1 (proj1 (C10_progress_sequence env "/talk.svg" "/talk.pdf" 4
                         (idle ∅)) Hok)).
Defined.

End Runs.

(** ** More on the analysis and the planner *)

Section Planner_more.

(** X1.  For any integer effect counts, the plan of a JessyInk presentation has
    [max 0 (e + 1)] steps per slide: a slide whose count is negative
    contributes no step, as [range] of a non-positive number is empty. *)
Theorem plan_length_any_counts (width height : Z) (es : list Z) :
  Py.len (_generate_steps (JessyInk width height es))
  = Py.sum (map steps_of_slide es).
Proof.
  change (_generate_steps (JessyInk width height es)) with (plan_from 0 es).
  generalize 0 as start. induction es as [|e es IH]; intros start; [done|].
  rewrite plan_from_cons. unfold Py.len in *. rewrite length_app.
  unfold slide_steps at 1. rewrite length_map, range_length.
  rewrite Nat2Z.inj_add, IH. cbn [map].
  change (Py.sum (steps_of_slide e :: map steps_of_slide es))
    with (steps_of_slide e + Py.sum (map steps_of_slide es)).
  unfold steps_of_slide at 2. lia.
Qed.

Lemma plan_from_elem (start : Z) (es : list Z) (x : string) :
  x ∈ plan_from start es ->
  exists s j, start <= s /\ x = jessyink_hash s j.
Proof.
  revert start. induction es as [|e es IH]; intros start Hx.
  - by apply elem_of_nil in Hx.
  - rewrite plan_from_cons in Hx. apply elem_of_app in Hx as [Hx|Hx].
    + unfold slide_steps in Hx.
      apply list_elem_of_fmap in Hx as [j [-> _]].
      exists start, j. split; [lia|done].
    + destruct (IH _ Hx) as (s & j & Hs & ->). exists s, j. split; [lia|done].
Qed.

Lemma range_NoDup (n : Z) : NoDup (Py.range n).
Proof.
  unfold Py.range. apply NoDup_fmap_2; [apply _|apply NoDup_seq].
Qed.

Lemma slide_steps_NoDup (s e : Z) : NoDup (slide_steps s e).
Proof.
  unfold slide_steps. apply NoDup_fmap_2; [|apply range_NoDup].
  intros j j' Hj. by destruct (jessyink_hash_inj _ _ _ _ Hj).
Qed.

(** X2.  The plan never names the same state twice: the addresses of a JessyInk
    plan are pairwise different, whatever the counts, and those of a Sozi
    plan are pairwise different exactly when the frame identifiers are. *)
Theorem plan_NoDup (width height : Z) :
  (forall es, NoDup (_generate_steps (JessyInk width height es))) /\
  (forall ids, NoDup (_generate_steps (Sozi width height ids)) <-> NoDup ids).
Proof.
  split.
  - intros es.
    change (_generate_steps (JessyInk width height es)) with (plan_from 0 es).
    generalize 0 as start. induction es as [|e es IH]; intros start.
    + constructor.
    + rewrite plan_from_cons. apply NoDup_app. split; [apply slide_steps_NoDup|].
      split; [|apply IH].
      intros x Hx Hx'. unfold slide_steps in Hx.
      apply list_elem_of_fmap in Hx as [j [-> _]].
      apply plan_from_elem in Hx' as (s & j' & Hs & Heq).
      destruct (jessyink_hash_inj _ _ _ _ Heq). lia.
  - intros ids. cbn [_generate_steps].
    assert (Inj (=) (=) (fun frame_id : string => "#" +:+ frame_id)) as Hinj
      by (intros a b Hab; by injection Hab).
    apply (NoDup_fmap _).
Qed.

Lemma slide_steps_nil (s e : Z) : slide_steps s e = [] <-> e < 0.
Proof.
  unfold slide_steps. split.
  - intros Hnil. apply (f_equal length) in Hnil.
    rewrite length_map, range_length in Hnil. cbn [length] in Hnil. lia.
  - intros He. apply length_zero_iff_nil.
    rewrite length_map, range_length. lia.
Qed.

Lemma plan_from_nil (start : Z) (es : list Z) :
  plan_from start es = [] <-> Forall (fun e => e < 0) es.
Proof.
  revert start. induction es as [|e es IH]; intros start.
  - split; [constructor|done].
  - rewrite plan_from_cons, Forall_cons. split.
    + intros Hnil. apply app_eq_nil in Hnil as [He Hes].
      split; [exact (proj1 (slide_steps_nil _ _) He)
             |exact (proj1 (IH _) Hes)].
    + intros [He Hes].
      by rewrite (proj2 (slide_steps_nil start e) He), (proj2 (IH _) Hes).
Qed.

(** X3.  The planner returns no step exactly in these cases: the kind is
    unknown; the kind is Sozi and there is no frame; the kind is JessyInk
    and every effect count is negative, which includes a presentation
    without slides.  A single slide with a count of zero or more makes
    the plan non-empty. *)
Theorem plan_empty_iff (info : Info) :
  _generate_steps info = [] <->
  match info with
  | Sozi _ _ frame_ids => frame_ids = []
  | JessyInk _ _ effect_counts => Forall (fun e => e < 0) effect_counts
  | UnknownInfo => True
  end.
Proof.
  destruct info as [width height ids|width height es|].
  - cbn [_generate_steps]. split; [apply fmap_nil_inv|by intros ->].
  - change (_generate_steps (JessyInk width height es)) with (plan_from 0 es).
    apply plan_from_nil.
  - done.
Qed.

End Planner_more.

(** ** The image files of a job *)

Section Image_files.

Lemma string_app_cons (c : ascii) (s t : string) :
  String c s +:+ t = String c (s +:+ t).
Proof. reflexivity. Qed.

Lemma string_app_nil (t : string) : "" +:+ t = t.
Proof. reflexivity. Qed.

Lemma string_length_app (s t : string) :
  String.length (s +:+ t) = (String.length s + String.length t)%nat.
Proof.
  induction s as [|c s IH]; [done|].
  rewrite string_app_cons. cbn [String.length]. by rewrite IH.
Qed.

Lemma string_app_inj_r (s1 s2 t : string) : s1 +:+ t = s2 +:+ t -> s1 = s2.
Proof.
  revert s2. induction s1 as [|c s1 IH]; intros [|c' s2] Heq;
    rewrite ?string_app_cons, ?string_app_nil in Heq.
  - done.
  - apply (f_equal String.length) in Heq.
    cbn [String.length] in Heq. rewrite string_length_app in Heq. lia.
  - apply (f_equal String.length) in Heq.
    cbn [String.length] in Heq. rewrite string_length_app in Heq. lia.
  - injection Heq as -> Heq. by rewrite (IH s2 Heq).
Qed.

Lemma pretty_N_go_head (x : N) (s : string) :
  (0 < x)%N ->
  exists c t, pretty_N_go x s = String c t /\ c <> "0"%char.
Proof.
  revert s. induction (N.lt_wf_0 x) as [x _ IH]; intros s Hx.
  rewrite pretty_N_go_step by done.
  destruct (decide (x `div` 10 = 0)%N) as [Hdiv|Hdiv].
  - rewrite Hdiv, pretty_N_go_0. eexists _, _. split; [done|].
    apply N.div_small_iff in Hdiv; [|done].
    rewrite N.mod_small by done.
    assert (x = 1 \/ x = 2 \/ x = 3 \/ x = 4 \/ x = 5 \/ x = 6
            \/ x = 7 \/ x = 8 \/ x = 9)%N as Hcases by lia.
    destruct Hcases as [->|[->|[->|[->|[->|[->|[->|[->| ->]]]]]]]]; done.
  - apply IH; [apply N.div_lt; lia|by apply N.neq_0_lt_0].
Qed.

Lemma str_head (n : Z) :
  1 <= n -> exists c t, Py.str n = String c t /\ c <> "0"%char.
Proof.
  intros Hn. destruct n as [|p|p]; try lia.
  unfold Py.str, pretty, pretty_Z, pretty, pretty_positive, pretty, pretty_N.
  case_decide; [done|]. by apply pretty_N_go_head.
Qed.

Lemma zeros_cancel (k k' : nat) (c c' : ascii) (t t' : string) :
  c <> "0"%char -> c' <> "0"%char ->
  Py.zeros k +:+ String c t = Py.zeros k' +:+ String c' t' ->
  String c t = String c' t'.
Proof.
  intros Hc Hc'. revert k'.
  induction k as [|k IH]; intros [|k'] Heq;
    cbn [Py.zeros] in Heq;
    rewrite ?string_app_cons, ?string_app_nil in Heq.
  - done.
  - injection Heq as -> _. done.
  - injection Heq as <- _. done.
  - injection Heq as Heq. by apply (IH k').
Qed.

Lemma fmt_04d_inj (n n' : Z) :
  1 <= n -> 1 <= n' -> Py.fmt_04d n = Py.fmt_04d n' -> n = n'.
Proof.
  intros Hn Hn' Heq. unfold Py.fmt_04d in Heq. cbv zeta in Heq.
  destruct (str_head n Hn) as (c & t & Hs & Hc).
  destruct (str_head n' Hn') as (c' & t' & Hs' & Hc').
  rewrite Hs, Hs' in Heq. apply zeros_cancel in Heq; [|done..].
  rewrite <- Hs, <- Hs' in Heq. by apply (inj pretty) in Heq.
Qed.

Lemma img_path_inj (tmp : string) (c c' : Z) :
  1 <= c -> 1 <= c' -> img_path tmp c = img_path tmp c' -> c = c'.
Proof.
  intros Hc Hc' Heq. unfold img_path in Heq.
  apply (inj (String.append tmp)) in Heq.
  apply (inj (String.append "/")) in Heq.
  apply string_app_inj_r in Heq. by apply fmt_04d_inj.
Qed.

Lemma image_paths_elem {A} (tmp : string) (start : Z) (l : list A) x :
  x ∈ map (fun step : Z * A => img_path tmp (step.1 + 1))
          (Py.enumerate_from start l) ->
  exists idx, start <= idx /\ x = img_path tmp (idx + 1).
Proof.
  revert start. induction l as [|a l IH]; intros start Hx;
    cbn [Py.enumerate_from map] in Hx.
  - by apply elem_of_nil in Hx.
  - apply elem_of_cons in Hx as [->|Hx].
    + exists start. split; [lia|done].
    + destruct (IH _ Hx) as (idx & Hidx & ->). exists idx. split; [lia|done].
Qed.

(** X4.  Every step of a job is captured into a file of its own: the image files
    of a job are pairwise different, so that no screenshot overwrites an
    earlier one, however many steps there are. *)
Theorem image_files_distinct (env : Env) (file_path : string) (cb : bool)
    (w : World) :
  NoDup (job_images env file_path cb w) /\
  length (job_images env file_path cb w)
  = length (_generate_steps (detected env file_path)).
Proof.
  split.
  - unfold job_images, image_paths, Py.enumerate.
    generalize (job_tmp_dir env file_path cb w) as tmp.
    generalize (_generate_steps (detected env file_path)) as steps.
    intros steps tmp. assert (0 <= 0) as Hstart by lia. revert Hstart.
    generalize 0 at 2 3 as start. 
    induction steps as [|step steps IH]; intros start Hstart;
      cbn [Py.enumerate_from map]; constructor.
    + intros Hin. apply image_paths_elem in Hin as (idx & Hidx & Heq).
      cbn [fst] in Heq. apply img_path_inj in Heq; lia.
    + apply IH. lia.
  - unfold job_images, image_paths, Py.enumerate.
    by rewrite length_map, enumerate_from_length.
Qed.

End Image_files.

(** ** Runs are orderly *)

Section Orderly.

Variable env : Env.
Variable stop : nat -> bool.

Lemma orderly_step n s script evs :
  stop (S (length script)) = false ->
  fault env n = None -> orderly env stop (S n) script evs ->
  orderly env stop n (s :: script) (s :: evs).
Proof.
  intros Hstop Hn H. cbn [orderly length]. rewrite Hstop.
  split; [done|]. by left.
Qed.

Lemma orderly_fault n s script evs :
  stop (S (length script)) = false ->
  is_Some (fault env n) ->
  Forall (fun e => is_cleanup_call e = true) evs ->
  orderly env stop n (s :: script) (s :: evs).
Proof.
  intros Hstop Hn H. cbn [orderly length]. rewrite Hstop.
  split; [done|]. by right.
Qed.

Lemma orderly_stop n script ev evs :
  stop (length script) = true ->
  Forall (fun e => is_cleanup_call e = true) (ev :: evs) ->
  orderly env stop n script (ev :: evs).
Proof. intros Hstop H. cbn [orderly]. by rewrite Hstop. Qed.

Lemma orderly_last n s :
  stop 1 = false -> orderly env stop n [s] [s].
Proof.
  intros Hstop. cbn [orderly length]. rewrite Hstop. split; [done|].
  destruct (fault env n) eqn:Hn; [right|left]; by eauto.
Qed.

Lemma capture_loop_orderly file_url tmp_dir cb total steps image_files w :
  loop_orderly env stop file_url tmp_dir cb total steps w
    (capture_loop env file_url tmp_dir cb total steps image_files w).
Proof.
  revert image_files w.
  induction steps as [|[idx step_hash] steps IH]; intros image_files w.
  - intros script evs _ H. exact H.
  - cbn [capture_loop].
    lazymatch goal with |- ?P (?m ?w) => change (wp m w P) end.
    wp_run;
      try (apply wp_conseq with (1 := IH _ _); intros o' Hrest);
      unfold loop_orderly; norm.
    all: unfold capture_calls in *; cbn [flat_map step_calls fst snd app].
    all: intros script evs Hstop H.
    all: rewrite <- ?app_assoc; cbn [app].
    all: repeat first
           [ apply orderly_step;
               [apply Hstop; cbn [length]; rewrite ?length_app; lia
               |assumption|]
           | apply orderly_fault;
               [apply Hstop; cbn [length]; rewrite ?length_app; lia
               |by eexists|assumption] ].
    all: by apply Hrest.
Qed.

Lemma capture_loop_facts file_url tmp_dir cb total steps image_files w :
  loop_facts env stop file_url tmp_dir cb total steps image_files w
    (capture_loop env file_url tmp_dir cb total steps image_files w).
Proof.
  split; [apply capture_loop_within|apply capture_loop_orderly].
Qed.

Lemma orderly_split n script evs :
  orderly env stop n script evs ->
  exists done_ rest,
    evs = done_ ++ rest /\ done_ `prefix_of` script /\
    Forall (fun e => is_cleanup_call e = true) rest.
Proof.
  revert n script. induction evs as [|ev evs IH]; intros n script H.
  - exists [], []. repeat split; [apply prefix_nil|constructor].
  - cbn [orderly] in H. destruct (stop (length script)).
    + exists [], (ev :: evs). repeat split; [apply prefix_nil|done].
    + destruct script as [|s script]; [done|].
      destruct H as [-> [[_ H]|[_ Hall]]].
      * destruct (IH _ _ H) as (done_ & rest & -> & Hpre & Hrest).
        exists (s :: done_), rest. repeat split; [|done].
        by apply prefix_cons.
      * exists [s], evs. repeat split; [|done].
        apply prefix_cons, prefix_nil.
Qed.

End Orderly.

(** Running a job with both facts about the capture loop at hand. *)
Ltac wp_job env stop :=
  repeat first
    [ wp_step
    | lazymatch goal with
      | |- wp (capture_loop _ _ _ _ _ _ _) _ _ =>
          let ol := fresh "ol" in
          let Hclock := fresh "Hclock" in
          let Hdriver := fresh "Hdriver" in
          let Hbrowser := fresh "Hbrowser" in
          let Hfs := fresh "Hfs" in
          let Hcalls := fresh "Hcalls" in
          let Hok := fresh "Hok" in
          let Hraise := fresh "Hraise" in
          let Hlen := fresh "Hlen" in
          let Hord := fresh "Hord" in
          apply wp_conseq
            with (1 := capture_loop_facts env stop _ _ _ _ _ _ _);
          intros ol (((Hclock & Hdriver & Hbrowser & Hfs & Hcalls & Hok
                       & Hraise) & Hlen) & Hord);
          norm
      | |- match result ?o with _ => _ end =>
          let images := fresh "images" in
          let e := fresh "e" in
          let Hres := fresh "Hres" in
          destruct (result o) as [images|e] eqn:Hres; norm;
          try (lazymatch goal with
               | H : forall e', Raise e = Raise e' -> _ |- _ =>
                   let c := fresh "c" in
                   let Hc := fresh "Hc" in
                   let Hfault := fresh "Hfault" in
                   destruct (H e eq_refl) as (c & Hc & Hfault); clear H
               end)
      | |- wp (match ?x with _ => _ end) _ _ =>
          let Hx := fresh "Hcase" in
          destruct x eqn:Hx; norm
      end ].

(** The job does not stop by itself where the run stands. *)
Ltac stops_not Hplan :=
  intros; unfold gives_up; rewrite ?Hplan;
  first
    [ reflexivity
    | lazymatch goal with
      | Hm : (length _ < _)%nat |- _ =>
          cbn [length] in Hm; apply Nat.eqb_neq; lia
      end ].

Ltac all_cleanup :=
  repeat first
    [ apply Forall_nil_2
    | apply Forall_cons_2; [reflexivity|] ].

Section Orderly_job.

Variable env : Env.

Lemma convert_orderly file_path output_path quality cb w :
  orderly env (gives_up (detected env file_path) cb) (clock w)
    (success_calls env file_path output_path quality cb w)
    (events (convert_presentation env file_path output_path quality cb w)).
Proof.
  wp_of (convert_presentation env file_path output_path quality cb) w.
  unfold success_calls, job_images, job_tmp_dir, detected, prelude_calls,
    convert_presentation, convert_body, _analyze_presentation.
  destruct cb;
    destruct (analyze (page_globals env (as_uri env file_path))) eqn:Hd;
    destruct (_generate_steps _) eqn:Hplan; try discriminate Hplan.
  all: lazymatch goal with
       | |- wp _ _ (fun o => orderly _ ?stop _ _ _) => wp_job env stop
       end.
  all: rewrite ?Hplan in *; cbn [length app Nat.add].
  all: rewrite <- ?app_assoc; cbn [app].
  all: try (destruct (Hok _ eq_refl) as (_ & Himg & _)).
  all: try (exfalso; apply (f_equal length) in Himg; unfold image_paths in Himg;
            rewrite length_map, enumerate_length in Himg; discriminate Himg).
  all: try (lazymatch type of Himg with
            | _ :: _ = _ => rewrite Himg
            end).
  all: repeat first
         [ apply orderly_step; [stops_not Hplan|assumption|]
         | apply orderly_fault; [stops_not Hplan|by eexists|all_cleanup; fail]
         | apply Hord; [stops_not Hplan|rewrite Hres]
         | apply orderly_last; stops_not Hplan
         | apply orderly_stop;
             [unfold gives_up; rewrite ?Hplan; reflexivity|all_cleanup; fail]
         | all_cleanup; fail ].
Qed.

(** X5.  Every run of a conversion is orderly: it makes the calls of the
    script of a successful conversion, in order and each returning, up to
    the first call that raises or to one of the two points where the job
    gives up by itself (right after the inspection of a document of no
    known kind, right before opening the output when the plan is empty);
    after that it makes cleanup calls only.  A run stops nowhere else: one
    in which no call raises and the job does not give up makes every call
    of the script.  So no step is skipped, repeated or taken out of turn,
    and nothing is captured or written after a failure. *)
Theorem run_orderly file_path output_path quality cb w :
  orderly env (gives_up (detected env file_path) cb) (clock w)
    (success_calls env file_path output_path quality cb w)
    (events (convert_presentation env file_path output_path quality cb w)).
Proof. apply convert_orderly. Qed.

End Orderly_job.

(** ** Pages come in the order of the plan *)

Section Order.

Variable env : Env.

Lemma screenshots_capture_calls file_url tmp_dir cb total steps :
  screenshots (capture_calls file_url tmp_dir cb total steps)
  = image_paths tmp_dir steps.
Proof.
  induction steps as [|step steps IH]; [done|].
  unfold capture_calls, screenshots in *. cbn [flat_map image_paths map].
  rewrite omap_app, IH. by destruct cb.
Qed.

Lemma navigations_capture_calls file_url tmp_dir cb total steps :
  navigations (capture_calls file_url tmp_dir cb total steps)
  = map (fun step => file_url +:+ step.2) steps.
Proof.
  induction steps as [|step steps IH]; [done|].
  unfold capture_calls, navigations in *. cbn [flat_map map].
  rewrite omap_app, IH. by destruct cb.
Qed.

Lemma assembled_capture_calls file_url tmp_dir cb total steps :
  assembled (capture_calls file_url tmp_dir cb total steps) = [].
Proof.
  induction steps as [|step steps IH]; [done|].
  unfold capture_calls, assembled in *. cbn [flat_map].
  rewrite omap_app, IH. by destruct cb.
Qed.

Lemma enumerate_from_snd {A} (start : Z) (l : list A) :
  map snd (Py.enumerate_from start l) = l.
Proof.
  revert start. induction l as [|a l IH]; intros start; [done|].
  cbn [Py.enumerate_from map snd]. by rewrite IH.
Qed.

(** What the script of a successful conversion navigates to, captures and
    assembles. *)
Lemma success_calls_order file_path output_path quality cb w :
  let script := success_calls env file_path output_path quality cb w in
  let file_url := as_uri env file_path in
  navigations script
  = file_url :: map (fun step_hash => file_url +:+ step_hash)
                    (_generate_steps (detected env file_path)) /\
  screenshots script = job_images env file_path cb w /\
  assembled script = [job_images env file_path cb w].
Proof.
  intros script file_url. subst script file_url.
  unfold success_calls, job_images.
  assert (forall url tmp total,
            navigations (capture_calls url tmp cb total
              (Py.enumerate (_generate_steps (detected env file_path))))
            = map (fun step_hash => url +:+ step_hash)
                  (_generate_steps (detected env file_path))) as Hnav.
  { intros url tmp total. rewrite navigations_capture_calls.
    rewrite <- (enumerate_from_snd 0
                  (_generate_steps (detected env file_path))) at 2.
    by rewrite map_map. }
  unfold navigations, screenshots, assembled in *.
  rewrite !omap_app.
  rewrite Hnav.
  pose proof (screenshots_capture_calls (as_uri env file_path)
    (job_tmp_dir env file_path cb w) cb
    (Py.len (_generate_steps (detected env file_path)))
    (Py.enumerate (_generate_steps (detected env file_path)))) as Hshot.
  pose proof (assembled_capture_calls (as_uri env file_path)
    (job_tmp_dir env file_path cb w) cb
    (Py.len (_generate_steps (detected env file_path)))
    (Py.enumerate (_generate_steps (detected env file_path)))) as Hasm.
  unfold screenshots, assembled in Hshot, Hasm. rewrite Hshot, Hasm.
  destruct (detected env file_path) eqn:Hd; destruct cb.
  all: unfold prelude_calls; cbn [omap list_omap app]; rewrite ?app_nil_r.
  all: done.
Qed.

(** X6.  A conversion that returns has loaded the document, then navigated to
    the address of every planned step, in the order of the plan; it has
    taken one screenshot per step, into the image files of the job, in the
    same order; and it has called the assembler once, with these image
    files in this order: page order is step order. *)
Theorem success_order file_path output_path quality cb w :
  let o := convert_presentation env file_path output_path quality cb w in
  let file_url := as_uri env file_path in
  result o = Ok tt ->
  navigations (events o)
  = file_url :: map (fun step_hash => file_url +:+ step_hash)
                    (_generate_steps (detected env file_path)) /\
  screenshots (events o) = job_images env file_path cb w /\
  assembled (events o) = [job_images env file_path cb w].
Proof.
  intros o file_url Hok.
  destruct (success_trace env file_path output_path quality cb w Hok)
    as (Hev & _ & Hplan).
  fold o in Hev. rewrite Hev. apply success_calls_order.
Qed.

Lemma omap_prefix {A} (f : Event -> option A) (l1 l2 : list Event) :
  l1 `prefix_of` l2 -> omap f l1 `prefix_of` omap f l2.
Proof. intros [k ->]. rewrite omap_app. by exists (omap f k). Qed.

Lemma omap_cleanup {A} (f : Event -> option A) evs :
  (forall ev, is_cleanup_call ev = true -> f ev = None) ->
  Forall (fun ev => is_cleanup_call ev = true) evs ->
  omap f evs = [].
Proof.
  intros Hf Hall. induction Hall as [|ev evs Hev _ IH]; [done|].
  cbn. by rewrite (Hf ev Hev), IH.
Qed.

(** X7.  Whatever fails, a conversion captures the steps in the order of the
    plan and without gaps: the screenshots taken are the first image files
    of the job, the navigations made are the document followed by the
    first step addresses of the plan, and the assembler is called at most
    once, and then with all the image files of the job. *)
Theorem captures_in_order file_path output_path quality cb w :
  let o := convert_presentation env file_path output_path quality cb w in
  let file_url := as_uri env file_path in
  screenshots (events o) `prefix_of` job_images env file_path cb w /\
  navigations (events o)
    `prefix_of` (file_url :: map (fun step_hash => file_url +:+ step_hash)
                               (_generate_steps (detected env file_path))) /\
  assembled (events o) `prefix_of` [job_images env file_path cb w].
Proof.
  intros o file_url.
  destruct (orderly_split _ _ _ _ _
              (convert_orderly env file_path output_path quality cb w))
    as (done_ & rest & Hev & Hpre & Hrest).
  destruct (success_calls_order file_path output_path quality cb w)
    as (Hnav & Hshot & Hasm).
  subst o file_url. cbv zeta in Hnav, Hshot, Hasm.
  rewrite Hev. split; [|split].
  - rewrite <- Hshot. unfold screenshots. rewrite omap_app.
    rewrite (omap_cleanup _ rest) by (done || by intros []).
    rewrite app_nil_r. by apply omap_prefix.
  - rewrite <- Hnav. unfold navigations. rewrite omap_app.
    rewrite (omap_cleanup _ rest) by (done || by intros []).
    rewrite app_nil_r. by apply omap_prefix.
  - rewrite <- Hasm. unfold assembled. rewrite omap_app.
    rewrite (omap_cleanup _ rest) by (done || by intros []).
    rewrite app_nil_r. by apply omap_prefix.
Qed.

End Order.

(** ** When a conversion returns *)

Section Verdict.

Variable env : Env.

(** X8.  No failure is swallowed inside the job: when a conversion
    returns, the document was of a known kind, its plan was not empty,
    and every call of the script of a successful conversion, from
    starting the driver to closing the browser, was made and returned. *)
Theorem returned_means_all_returned file_path output_path quality cb w :
  let o := convert_presentation env file_path output_path quality cb w in
  result o = Ok tt ->
  detected env file_path <> UnknownInfo /\
  _generate_steps (detected env file_path) <> [] /\
  clean env (clock w) (calls_before_assembly env file_path cb + 6)%nat /\
  events o = success_calls env file_path output_path quality cb w.
Proof.
  intros o Hret.
  enough (detected env file_path <> UnknownInfo /\
          _generate_steps (detected env file_path) <> [] /\
          clean env (clock w) (calls_before_assembly env file_path cb + 6))
    as (? & ? & ?)
    by (repeat (split; [done|]); by apply success_trace).
  revert Hret. subst o.
  unfold calls_before_assembly, detected in *.
  wp_of (convert_presentation env file_path output_path quality cb) w.
  unfold convert_presentation, convert_body.
  wp_len env.
  all: try rewrite Hcase in *.
  all: intros Hret; try discriminate Hret.
  all: destruct (Hok _ eq_refl) as (Hev & Himg & Hcl).
  all: apply (f_equal length) in Hev;
       rewrite capture_calls_length, enumerate_length in Hev.
  all: split; [done|].
  all: split;
    [intros Hnil; rewrite Hnil in Himg; discriminate|].
  all: cbn [prelude_calls length app Nat.add]; rewrite <- Hev.
  all: clean_build Hcl.
Qed.

End Verdict.

(** ** What a conversion touches and releases *)

Section Failure.

Variable env : Env.

Lemma convert_frame file_path output_path quality cb w (path : string) :
  path <> output_path ->
  fs (final (convert_presentation env file_path output_path quality cb w))
    !! path
  = fs w !! path.
Proof.
  intros Hpath.
  wp_of (convert_presentation env file_path output_path quality cb) w.
  unfold convert_presentation, convert_body.
  wp_go env.
  all: rewrite ?lookup_insert_ne by done; by rewrite ?Hfs.
Qed.

(** X10.  Whatever happens, a conversion leaves every file outside its
    temporary directory as it was, except its output: the only file it
    opens for writing is [output_path]. *)
Theorem only_output_modified file_path output_path quality cb w
    (path : string) :
  path <> output_path ->
  fs (final (convert_presentation env file_path output_path quality cb w))
    !! path
  = fs w !! path.
Proof. apply convert_frame. Qed.

Lemma convert_sessions file_path output_path quality cb w :
  driver w = false -> browser w = false ->
  let o := convert_presentation env file_path output_path quality cb w in
  driver (final o) = false /\ browser (final o) = false.
Proof.
  intros Hd Hb o. subst o.
  wp_of (convert_presentation env file_path output_path quality cb) w.
  unfold convert_presentation.
  wp_step. wp_step; [done|].
  do 3 wp_step; [by wp_run|].
  wp_step. wp_step; [by wp_run|].
  wp_step. wp_step; [by wp_run|].
  wp_step. wp_skip. by wp_step; wp_run.
Qed.

Lemma released_capture n evs rest :
  forallb is_capture_call evs = true ->
  released env (n + length evs) rest ->
  released env n (evs ++ rest).
Proof.
  revert n. induction evs as [|ev evs IH]; intros n Hall Hrest.
  - by rewrite Nat.add_0_r in Hrest.
  - cbn [forallb] in Hall. apply andb_true_iff in Hall as [Hev Hall].
    cbn [app released]. split.
    + by destruct ev.
    + apply IH; [done|]. cbn [length] in Hrest.
      by rewrite Nat.add_succ_r in Hrest.
Qed.

(** X11.  Whatever happens, a conversion releases what it acquired: when
    starting the Playwright driver, creating the temporary directory or
    opening the output file returned, the driver is stopped, the
    directory cleaned up and the file closed later in the same run. *)
Theorem acquired_is_released file_path output_path quality cb w :
  released env (clock w)
    (events (convert_presentation env file_path output_path quality cb w)).
Proof.
  wp_of (convert_presentation env file_path output_path quality cb) w.
  unfold convert_presentation, convert_body.
  wp_go env.
  all: rewrite <- ?app_assoc; cbn [app].
  all: repeat first
         [ exact I
         | split
         | apply released_capture; [assumption|rewrite <- Hclock]
         | progress cbn [released release_of]
         | let Hn := fresh "Hn" in
           intros Hn; first [find_event | exfalso; congruence] ].
Qed.

End Failure.

(** ** The batch as a whole *)

Section Batch_more.

Variable env : Env.

(** What every conversion of a batch preserves, the batch preserves. *)
Lemma process_loop_preserves (I : World -> Prop) quality files w :
  (forall w', I w' -> I (tick w')) ->
  (forall input_file w',
     input_file ∈ files -> I w' ->
     I (final (convert_presentation env input_file
                 (with_suffix_pdf env input_file) quality true w'))) ->
  I w -> I (final (process_loop env quality files w)).
Proof.
  intros Htick. revert w.
  induction files as [|input_file rest IH]; intros w Hconv Hw; [done|].
  cbn [process_loop].
  lazymatch goal with |- context [final (?m w)] => wp_of m w end.
  do 5 wp_step.
  apply wp_conseq with (P := fun o => I (final o)).
  { apply Hconv; [apply list_elem_of_here|by apply Htick]. }
  intros o Ho.
  assert (forall w', I w' -> I (final (process_loop env quality rest w')))
    as Hrest.
  { intros w' Hw'. apply IH; [|done].
    intros f w'' Hf. apply Hconv. by apply list_elem_of_further. }
  destruct (result o) as [[]|e] eqn:Hres; norm.
  - wp_run. by apply Hrest, Htick, Htick.
  - destruct e; norm; wp_run; try done; by apply Hrest, Htick, Htick.
Qed.

Lemma main_preserves (I : World -> Prop) paths quality w :
  (forall w', I w' -> I (tick w')) ->
  (forall input_file w',
     input_file ∈ scan env paths -> I w' ->
     I (final (convert_presentation env input_file
                 (with_suffix_pdf env input_file) quality true w'))) ->
  I w -> I (at_exit (main env paths quality w)).
Proof.
  intros Htick Hconv Hw.
  assert (I (final (process_files env paths quality w))) as Hfiles.
  { unfold process_files.
    destruct (scan env paths) as [|input_file rest] eqn:Hscan.
    - by apply Htick.
    - lazymatch goal with |- context [final (?m w)] => wp_of m w end.
      do 2 wp_step.
      lazymatch goal with
      | |- wp ?m ?w' _ => unfold wp; change (I (final (m w')))
      end.
      apply process_loop_preserves; [done|done|by apply Htick]. }
  unfold main. destruct paths as [|p paths']; [by apply Htick|].
  destruct (result _) as [[]|[]]; cbn; try done; by apply Htick.
Qed.

(** X12.  Whatever happens, the command-line program modifies no file,
    outside the temporary directories of its conversions, other than the
    PDFs beside the files it found: every other file is at exit as it was
    at start, the input files included. *)
Theorem batch_only_outputs_modified paths quality w (path : string) :
  (forall input_file,
     input_file ∈ scan env paths ->
     path <> with_suffix_pdf env input_file) ->
  fs (at_exit (main env paths quality w)) !! path = fs w !! path.
Proof.
  intros Hpath.
  apply (main_preserves (fun w' => fs w' !! path = fs w !! path));
    [done| |done].
  intros input_file w' Hin <-. apply convert_frame. by apply Hpath.
Qed.

(** X13.  Whatever happens, the command-line program started with no session
    alive exits with none alive: neither a failed conversion nor an
    interruption leaves a driver or a browser behind. *)
Theorem batch_sessions_released paths quality w :
  driver w = false -> browser w = false ->
  driver (at_exit (main env paths quality w)) = false /\
  browser (at_exit (main env paths quality w)) = false.
Proof.
  intros Hd Hb.
  apply (main_preserves
           (fun w' => driver w' = false /\ browser w' = false));
    [done| |done].
  intros input_file w' _ [Hd' Hb']. by apply convert_sessions.
Qed.

End Batch_more.

(** ** Interruption *)

Section Interrupt.

Variable env : Env.

Lemma announced_app evs1 evs2 :
  announced (evs1 ++ evs2) = announced evs1 ++ announced evs2.
Proof. apply omap_app. Qed.

Lemma sessions_app evs1 evs2 :
  sessions (evs1 ++ evs2) = sessions evs1 ++ sessions evs2.
Proof. apply omap_app. Qed.

Lemma verdicts_app evs1 evs2 :
  verdicts (evs1 ++ evs2) = verdicts evs1 ++ verdicts evs2.
Proof. apply omap_app. Qed.

Lemma interrupted_later input_file rest (v : Verdict) evs evs' :
  verdict_of env input_file v ->
  verdicts evs = [v] ->
  announced evs = [path_name env input_file] ->
  sessions evs = [()] ->
  interrupted_at env rest evs' ->
  interrupted_at env (input_file :: rest) (evs ++ evs').
Proof.
  intros Hverdict Hv Ha Hs
    (dealt & current & rest' & -> & Hann & Hses & Hver & Hki).
  exists (input_file :: dealt), current, rest'.
  rewrite announced_app, sessions_app, verdicts_app, Hv, Ha, Hs, Hann.
  split; [done|]. split; [done|].
  split; [cbn [app length]; by rewrite Hses|].
  split; [by constructor|done].
Qed.

Lemma process_loop_interrupted quality files w :
  let o := process_loop env quality files w in
  result o = Raise KeyboardInterrupt ->
  interrupted_at env files (events o).
Proof.
  revert w. induction files as [|input_file rest IH]; intros w; [done|].
  cbn [process_loop].
  lazymatch goal with |- context [result (?m w)] => wp_of m w end.
  do 5 wp_step.
  apply wp_conseq
    with (1 := convert_outcome env input_file
                 (with_suffix_pdf env input_file) quality true _).
  intros o ((inner & Hev & Hinner) & Hexn).
  assert (announced inner = [] /\ sessions inner = []
          /\ verdicts inner = []) as (Ha & Hs & Hv).
  { repeat split; apply omap_inner; auto; by intros []. }
  assert (forall (msg : Message) (v : Verdict) w',
            verdict_of env input_file v ->
            verdicts [Print msg] = [v] ->
            announced [Print msg] = [] ->
            wp (process_loop env quality rest) w'
              (fun o' =>
                 result o' = Raise KeyboardInterrupt ->
                 interrupted_at env (input_file :: rest)
                   (Print (Processing (path_name env input_file))
                    :: (events o ++ [Print msg])
                    ++ Print Separator :: events o'))) as Hnext.
  { intros msg v w' Hverdict Hmsg Hmsg' Hres'.
    apply (IH w') in Hres'. rewrite Hev.
    lazymatch goal with
    | |- interrupted_at _ _ (?a :: ((?b :: ?i) ++ [?c]) ++ ?d :: ?t) =>
        replace (a :: ((b :: i) ++ [c]) ++ d :: t)
          with ((a :: b :: i ++ [c; d]) ++ t)
          by (cbn [app]; by rewrite <- !app_assoc)
    end.
    apply interrupted_later with (v := v); [done|..].
    - change (verdicts ([Print (Processing (path_name env input_file));
                         PlaywrightStart] ++ inner
                        ++ [Print msg] ++ [Print Separator]) = [v]).
      by rewrite !verdicts_app, Hv, Hmsg.
    - change (announced ([Print (Processing (path_name env input_file));
                          PlaywrightStart] ++ inner
                         ++ [Print msg] ++ [Print Separator])
              = [path_name env input_file]).
      by rewrite !announced_app, Ha, Hmsg'.
    - change (sessions ([Print (Processing (path_name env input_file));
                         PlaywrightStart] ++ inner
                        ++ [Print msg; Print Separator]) = [()]).
      rewrite !sessions_app, Hs. reflexivity.
    - exact Hres'. }
  destruct (result o) as [[]|e] eqn:Hres; norm.
  - wp_run. eapply Hnext; [by left|done|done].
  - destruct e; norm; wp_run.
    1-3: eapply Hnext; [right; by eexists|done|done].
    intros _. exists [], input_file, rest.
    rewrite Hev.
    change (Print (Processing (path_name env input_file))
            :: PlaywrightStart :: inner)
      with ([Print (Processing (path_name env input_file));
             PlaywrightStart] ++ inner).
    rewrite announced_app, sessions_app, verdicts_app, Ha, Hs, Hv.
    split; [done|]. split; [done|]. split; [done|].
    split; [constructor|].
    by destruct (Hexn _ eq_refl).
Qed.

Lemma process_files_interrupted paths quality w :
  let o := process_files env paths quality w in
  result o = Raise KeyboardInterrupt ->
  interrupted_at env (scan env paths) (events o).
Proof.
  unfold process_files.
  destruct (scan env paths) as [|input_file rest] eqn:Hscan; [done|].
  lazymatch goal with |- context [result (?m w)] => wp_of m w end.
  do 2 wp_step.
  lazymatch goal with |- wp ?m ?w' _ => unfold wp end.
  intros Hres.
  destruct (process_loop_interrupted quality _ _ Hres)
    as (dealt & current & rest' & Hfiles & Hann & Hses & Hver & Hki).
  by exists dealt, current, rest'.
Qed.

(** X14.  When the batch is interrupted, it stops there: the files before the
    interrupted one have their verdicts, the interrupted file was
    announced and its conversion started but it has no verdict, no later
    file is announced or converted, and [main] says that it was
    interrupted as the last thing it prints. *)
Theorem interruption_stops_batch paths quality w :
  paths <> [] ->
  result (process_files env paths quality w) = Raise KeyboardInterrupt ->
  let t := trace (main env paths quality w) in
  interrupted_at env (scan env paths) t /\
  last t = Some (Print Interrupted).
Proof.
  intros Hpaths Hres t. subst t.
  pose proof (process_files_interrupted paths quality w Hres)
    as (dealt & current & rest' & Hfiles & Hann & Hses & Hver & Hki).
  unfold main. destruct paths as [|p paths']; [done|].
  rewrite Hres. cbn [trace events perform].
  split; [|by rewrite last_snoc].
  exists dealt, current, rest'.
  rewrite announced_app, sessions_app, verdicts_app, !app_nil_r.
  done.
Qed.

End Interrupt.

(** ** Finding the files to convert *)

Section Discovery_facts.

Variable disk : Disk.
Variable path_le : relation string.
Context `{forall x y, Decision (path_le x y)}.

Lemma glob_all_elem path exts acc f :
  f ∈ foldl (fun files ext => files ++ glob disk path ("*" +:+ ext)) acc exts
  <-> f ∈ acc \/ exists ext, ext ∈ exts /\ f ∈ glob disk path ("*" +:+ ext).
Proof.
  revert acc. induction exts as [|ext exts IH]; intros acc; cbn [foldl].
  - split; [by left|]. intros [?|(ext & Hext & _)]; [done|].
    by apply elem_of_nil in Hext.
  - rewrite IH, elem_of_app. split.
    + intros [[?|?]|(ext' & Hext' & Hf)]; [by left|right..].
      * exists ext. split; [apply list_elem_of_here|done].
      * exists ext'. split; [by apply list_elem_of_further|done].
    + intros [?|(ext' & Hext' & Hf)]; [by left; left|].
      apply elem_of_cons in Hext' as [-> | Hext']; [by left; right|].
      right. by exists ext'.
Qed.

Lemma visit_elem exts acc path f :
  exts ≡ₚ valid_exts ->
  f ∈ visit disk exts acc path <-> f ∈ acc \/ found_by disk [path] f.
Proof.
  intros Hexts. unfold visit, found_by.
  destruct (accepted disk path) eqn:Hacc;
    [|destruct (is_dir disk path) eqn:Hdir].
  - rewrite elem_of_app, list_elem_of_singleton. split.
    + intros [? | ->]; [by left|]. right. exists path.
      split; [apply list_elem_of_here|]. left. by rewrite Hacc.
    + intros [?|(p & Hp & Hf)]; [by left|].
      apply list_elem_of_singleton in Hp as ->. rewrite Hacc in Hf.
      destruct Hf as [[_ ->]|[? _]]; [by right|done].
  - rewrite glob_all_elem. split.
    + intros [?|(ext & Hext & Hf)]; [by left|]. right. exists path.
      split; [apply list_elem_of_here|]. right. rewrite Hacc, Hdir.
      do 2 (split; [done|]). exists ext. by rewrite <- Hexts.
    + intros [?|(p & Hp & Hf)]; [by left|].
      apply list_elem_of_singleton in Hp as ->. rewrite Hacc in Hf.
      destruct Hf as [[? _]|(_ & _ & ext & Hext & Hf)]; [done|].
      right. exists ext. by rewrite Hexts.
  - split; [by left|]. intros [?|(p & Hp & Hf)]; [done|].
    apply list_elem_of_singleton in Hp as ->. rewrite Hacc, Hdir in Hf.
    by destruct Hf as [[? _]|(_ & ? & _)].
Qed.

Lemma found_by_cons path paths f :
  found_by disk (path :: paths) f
  <-> found_by disk [path] f \/ found_by disk paths f.
Proof.
  unfold found_by. split.
  - intros (p & Hp & Hf). apply elem_of_cons in Hp as [-> | Hp].
    + left. exists path. split; [apply list_elem_of_here|done].
    + right. by exists p.
  - intros [(p & Hp & Hf)|(p & Hp & Hf)].
    + apply list_elem_of_singleton in Hp as ->. exists path.
      split; [apply list_elem_of_here|done].
    + exists p. split; [by apply list_elem_of_further|done].
Qed.

Lemma collect_elem exts paths acc f :
  exts ≡ₚ valid_exts ->
  f ∈ foldl (visit disk exts) acc paths
  <-> f ∈ acc \/ found_by disk paths f.
Proof.
  intros Hexts. revert acc.
  induction paths as [|path paths IH]; intros acc; cbn [foldl].
  - split; [by left|]. intros [?|(p & Hp & _)]; [done|].
    by apply elem_of_nil in Hp.
  - rewrite IH, (visit_elem _ _ _ _ Hexts), (found_by_cons path paths).
    tauto.
Qed.

Lemma files_to_process_elem exts list_set paths f :
  exts ≡ₚ valid_exts ->
  lists_the_set list_set ->
  f ∈ files_to_process disk exts list_set path_le paths
  <-> found_by disk paths f.
Proof.
  intros Hexts Hset. unfold files_to_process.
  rewrite merge_sort_Permutation, (proj2 (Hset _)), collect_elem by done.
  split; [|by right]. intros [Hnil|?]; [|done]. by apply elem_of_nil in Hnil.
Qed.

Lemma files_to_process_NoDup exts list_set paths :
  lists_the_set list_set ->
  NoDup (files_to_process disk exts list_set path_le paths).
Proof.
  intros Hset. unfold files_to_process.
  rewrite merge_sort_Permutation. apply Hset.
Qed.

(** X15.  The files to convert are exactly: the given paths that are
    files whose extension, in lower case, is [.svg] or [.html], and what
    the patterns [*.svg] and [*.html] match in the given paths that are
    directories (and no such file); a path that is neither contributes
    nothing and is passed over in silence. *)
Theorem discovered_exactly exts list_set paths f :
  exts ≡ₚ valid_exts ->
  lists_the_set list_set ->
  f ∈ files_to_process disk exts list_set path_le paths
  <-> found_by disk paths f.
Proof. apply files_to_process_elem. Qed.

(** X17.  The files to convert and their order depend neither on the order of
    the paths on the command line, nor on their repetition, nor on the
    orders that Python leaves open (of the two extensions and of the
    elements of the set of files). *)
Theorem discovery_canonical
    `{!Total path_le, !Transitive path_le, !AntiSymm (=) path_le}
    exts1 exts2 list_set1 list_set2 paths1 paths2 :
  exts1 ≡ₚ valid_exts -> exts2 ≡ₚ valid_exts ->
  lists_the_set list_set1 -> lists_the_set list_set2 ->
  (forall path, path ∈ paths1 <-> path ∈ paths2) ->
  files_to_process disk exts1 list_set1 path_le paths1
  = files_to_process disk exts2 list_set2 path_le paths2.
Proof.
  intros Hexts1 Hexts2 Hset1 Hset2 Hpaths.
  apply (Sorted_unique path_le).
  - apply (Sorted_merge_sort _).
  - apply (Sorted_merge_sort _).
  - apply NoDup_Permutation; [by apply files_to_process_NoDup..|].
    intros f. rewrite !files_to_process_elem by done.
    unfold found_by. by setoid_rewrite Hpaths.
Qed.

End Discovery_facts.

(** The order of strings by their characters is a total order. *)
Section Name_order.

Lemma ascii_compare_N (a b : ascii) :
  Ascii.compare a b = N.compare (N_of_ascii a) (N_of_ascii b).
Proof. reflexivity. Qed.

Lemma string_compare_lt_trans (s1 s2 s3 : string) :
  String.compare s1 s2 = Lt -> String.compare s2 s3 = Lt ->
  String.compare s1 s3 = Lt.
Proof.
  revert s2 s3.
  induction s1 as [|a1 s1 IH]; intros [|a2 s2] [|a3 s3];
    cbn [String.compare]; try done.
  rewrite !ascii_compare_N.
  destruct (N.compare (N_of_ascii a1) (N_of_ascii a2)) eqn:E12;
    destruct (N.compare (N_of_ascii a2) (N_of_ascii a3)) eqn:E23;
    try done; intros H12 H23.
  - apply N.compare_eq_iff in E12, E23.
    rewrite E12, E23, N.compare_refl. eauto.
  - apply N.compare_eq_iff in E12. by rewrite E12, E23.
  - apply N.compare_eq_iff in E23. by rewrite <- E23, E12.
  - apply N.compare_lt_iff in E12, E23.
    assert (N.compare (N_of_ascii a1) (N_of_ascii a3) = Lt) as ->
      by (apply N.compare_lt_iff; etrans; eassumption).
    done.
Qed.

#[global] Instance name_le_total : Total name_le.
Proof. intros s1 s2. apply String.leb_total. Qed.

#[global] Instance name_le_antisym : AntiSymm (=) name_le.
Proof. intros s1 s2. apply String.leb_antisym. Qed.

#[global] Instance name_le_trans : Transitive name_le.
Proof.
  intros s1 s2 s3. unfold name_le, String.leb.
  destruct (String.compare s1 s2) eqn:H12; [| |done];
    destruct (String.compare s2 s3) eqn:H23; try done; intros _ _.
  - apply String.compare_eq_iff in H12 as ->. by rewrite H23.
  - apply String.compare_eq_iff in H12 as ->. by rewrite H23.
  - apply String.compare_eq_iff in H23 as <-. by rewrite H12.
  - by rewrite (string_compare_lt_trans s1 s2 s3).
Qed.

Lemma remove_dups_lists_the_set : lists_the_set remove_dups.
Proof.
  intros l. split; [apply NoDup_remove_dups|].
  intros x. apply elem_of_remove_dups.
Qed.

End Name_order.

Section Discovery_runs.

Example sample_discovery :
  files_to_process sample_disk [".html"; ".svg"] remove_dups name_le
    ["talks"; "notes.txt"; "intro.SVG"; "talks/b.svg"; "missing.svg";
     "intro.SVG"]
  = ["intro.SVG"; "talks/a.html"; "talks/b.svg"].
Proof. vm_compute. reflexivity. Qed.

Lemma discovered_exactly_witness :
  ([".html"; ".svg"] ≡ₚ valid_exts /\ lists_the_set remove_dups) /\
  ("talks/a.html"
     ∈ files_to_process sample_disk [".html"; ".svg"] remove_dups name_le
         ["talks"; "notes.txt"]
   <-> found_by sample_disk ["talks"; "notes.txt"] "talks/a.html").
Proof.
  assert ([".html"; ".svg"] ≡ₚ valid_exts) as Hexts by apply Permutation_swap.
  split; [split; [exact Hexts|exact remove_dups_lists_the_set]|].
  exact (discovered_exactly sample_disk name_le [".html"; ".svg"] remove_dups
           ["talks"; "notes.txt"] "talks/a.html" Hexts
           remove_dups_lists_the_set).
Defined.

Lemma discovery_canonical_witness :
  let paths1 := ["talks"; "intro.SVG"] in
  let paths2 := ["intro.SVG"; "talks"; "intro.SVG"] in
  (forall path, path ∈ paths1 <-> path ∈ paths2) /\
  files_to_process sample_disk [".svg"; ".html"] remove_dups name_le paths1
  = files_to_process sample_disk [".html"; ".svg"] remove_dups name_le paths2.
Proof.
  intros paths1 paths2.
  assert (forall path, path ∈ paths1 <-> path ∈ paths2) as Hpaths.
  { intros path. unfold paths1, paths2.
    rewrite !elem_of_cons, elem_of_nil. tauto. }
  split; [exact Hpaths|].
  exact (discovery_canonical sample_disk name_le
           [".svg"; ".html"] [".html"; ".svg"] remove_dups remove_dups
           paths1 paths2 (reflexivity _) (Permutation_swap _ _ _)
           remove_dups_lists_the_set remove_dups_lists_the_set Hpaths).
Defined.

End Discovery_runs.

(** ** Further runs in a concrete outside world *)

Section More_runs.

Lemma success_order_witness :
  let env := world_with no_fault (sozi_page ["intro"; "end"]) in
  let o := convert_presentation env "/talk.svg" "/talk.pdf" 4 true (idle ∅) in
  result o = Ok tt /\
  screenshots (events o) = job_images env "/talk.svg" true (idle ∅) /\
  assembled (events o) = [job_images env "/talk.svg" true (idle ∅)].
Proof.
  intros env o.
  assert (result o = Ok tt) as Hok by (vm_compute; reflexivity).
  split; [exact Hok|].
  exact (proj2 (success_order env "/talk.svg" "/talk.pdf" 4 true (idle ∅)
                  Hok)).
Defined.

Lemma returned_means_all_returned_witness :
  let env := world_with no_fault (jessyink_page [0; 2]%nat) in
  let o := convert_presentation env "/deck.svg" "/deck.pdf" 2 false (idle ∅) in
  result o = Ok tt /\
  _generate_steps (detected env "/deck.svg") <> [] /\
  events o = success_calls env "/deck.svg" "/deck.pdf" 2 false (idle ∅).
Proof.
  intros env o.
  assert (result o = Ok tt) as Hok by (vm_compute; reflexivity).
  split; [exact Hok|].
  pose proof (returned_means_all_returned env "/deck.svg" "/deck.pdf" 2
                false (idle ∅) Hok) as (_ & Hplan & _ & Hev).
  split; [exact Hplan|exact Hev].
Defined.

Lemma only_output_modified_witness :
  let env := world_with (fault_at 18 (LibraryError "img2pdf"))
                        (sozi_page ["intro"]) in
  let w := idle {[ "/notes.txt" := Blob "keep" ]} in
  "/notes.txt" <> "/talk.pdf" /\
  fs (final (convert_presentation env "/talk.svg" "/talk.pdf" 4 true w))
    !! "/notes.txt"
  = fs w !! "/notes.txt".
Proof.
  intros env w.
  assert ("/notes.txt" <> "/talk.pdf") as Hpath by discriminate.
  split; [exact Hpath|].
  exact (only_output_modified env "/talk.svg" "/talk.pdf" 4 true w
           "/notes.txt" Hpath).
Defined.

Lemma batch_only_outputs_modified_witness :
  let env := world_with (fault_at 6 (LibraryError "net::ERR_FILE_NOT_FOUND"))
                        (sozi_page ["intro"]) in
  let w := idle {[ "a.svg" := Blob "<svg/>" ]} in
  (forall input_file,
     input_file ∈ scan env ["a.svg"; "b.html"] ->
     "a.svg" <> with_suffix_pdf env input_file) /\
  fs (at_exit (main env ["a.svg"; "b.html"] 4 w)) !! "a.svg"
  = fs w !! "a.svg".
Proof.
  intros env w.
  assert (forall input_file,
            input_file ∈ scan env ["a.svg"; "b.html"] ->
            "a.svg" <> with_suffix_pdf env input_file) as Hpath.
  { intros input_file Hin. cbn in Hin.
    apply elem_of_cons in Hin as [->|Hin]; [vm_compute; discriminate|].
    apply elem_of_cons in Hin as [->|Hin]; [vm_compute; discriminate|].
    by apply elem_of_nil in Hin. }
  split; [exact Hpath|].
  exact (batch_only_outputs_modified env ["a.svg"; "b.html"] 4 w "a.svg"
           Hpath).
Defined.

Lemma batch_sessions_released_witness :
  let env := world_with (fault_at 6 KeyboardInterrupt)
                        (sozi_page ["intro"]) in
  (driver (idle ∅) = false /\ browser (idle ∅) = false) /\
  driver (at_exit (main env ["a.svg"; "b.html"] 4 (idle ∅))) = false /\
  browser (at_exit (main env ["a.svg"; "b.html"] 4 (idle ∅))) = false.
Proof.
  intros env. split; [by split|].
  exact (batch_sessions_released env ["a.svg"; "b.html"] 4 (idle ∅)
           eq_refl eq_refl).
Defined.

Lemma interruption_stops_batch_witness :
  let env := world_with (fault_at 34 KeyboardInterrupt)
                        (sozi_page ["intro"]) in
  let paths := ["a.svg"; "b.html"; "c.svg"] in
  (paths <> [] /\
   result (process_files env paths 4 (idle ∅)) = Raise KeyboardInterrupt) /\
  interrupted_at env (scan env paths) (trace (main env paths 4 (idle ∅))) /\
  last (trace (main env paths 4 (idle ∅))) = Some (Print Interrupted).
Proof.
  intros env paths.
  assert (paths <> []) as Hpaths by discriminate.
  assert (result (process_files env paths 4 (idle ∅))
          = Raise KeyboardInterrupt) as Hres by (vm_compute; reflexivity).
  split; [by split|].
  exact (interruption_stops_batch env paths 4 (idle ∅) Hpaths Hres).
Defined.

(** The batch of the witness above: the interruption comes while the second
    file is converted; the first file has its verdict, the third is never
    announced. *)
Example interrupted_second_file :
  let env := world_with (fault_at 34 KeyboardInterrupt)
                        (sozi_page ["intro"]) in
  let t := trace (main env ["a.svg"; "b.html"; "c.svg"] 4 (idle ∅)) in
  announced t = ["a.svg"; "b.html"] /\
  verdicts t = [Converted "a.pdf"].
Proof. vm_compute. split; reflexivity. Qed.

End More_runs.
